(** * sentinelhub_batch: the Sentinel Hub Batch client

    A shallow embedding of [sentinelhub/sentinelhub_batch.py]: the class
    [SentinelHubBatch], its URL builders and payload helpers, and the two
    module-level functions [get_batch_tiles_per_status] and
    [monitor_batch_job].

    Python values are the JSON values the service exchanges.  Every effect of
    the module (a call of the download client, a sleep, a log record, a
    progress-bar operation) is recorded in a chronological trace; the remote
    service is a function of that trace. *)

From Stdlib Require Import String Ascii List ZArith Bool Lia DecimalString.
Import ListNotations.
Local Open Scope string_scope.
Local Open Scope Z_scope.
#[local] Set Warnings "-register-all".

(** ** Python values *)

Module Py.

(** A JSON document as Python's [json] module decodes it: [None], [bool],
    [int], [str], [list] and [dict] with string keys in insertion order.
    Non-integral numbers are not represented. *)
Inductive json : Type :=
| JNull
| JBool (b : bool)
| JNum (n : Z)
| JStr (s : string)
| JArr (l : list json)
| JObj (d : list (string * json)).

Definition dict : Type := list (string * json).

(** The exceptions the module raises or lets through. *)
Inductive exn : Type :=
| ValueError (msg : string)
| RuntimeError (msg : string)
| KeyError (key : string)
| TypeError (what : string)
| AttributeError (what : string)
| IndexError (what : string)
| UnboundLocalError (name : string)
| StopIteration
| MissingDataInRequestException (msg : string)
| DownloadFailedException (msg : string).

(** [d.get(k)]: the binding of [k], if any. *)
Fixpoint dict_get (k : string) (d : dict) : option json :=
  match d with
  | [] => None
  | (k', v) :: d' => if String.eqb k k' then Some v else dict_get k d'
  end.

(** [d[k] = v]: an existing key keeps its place, a new one goes last. *)
Fixpoint dict_set (k : string) (v : json) (d : dict) : dict :=
  match d with
  | [] => [(k, v)]
  | (k', v') :: d' =>
      if String.eqb k k' then (k', v) :: d' else (k', v') :: dict_set k v d'
  end.

Definition keys (d : dict) : list string := map fst d.

(** A dict display [{k1: v1, ..., **kwargs}]: entries are stored from left to
    right, so a later entry overrides an earlier one with the same key. *)
Definition dict_literal (entries : list (string * json)) : dict :=
  fold_left (fun d kv => dict_set (fst kv) (snd kv) d) entries [].

Definition is_None (v : json) : bool :=
  match v with JNull => true | _ => false end.

(** Truth value testing ([if v:], [not v], [a or b]). *)
Definition truthy (v : json) : bool :=
  match v with
  | JNull => false
  | JBool b => b
  | JNum n => negb (n =? 0)
  | JStr s => negb (String.eqb s "")
  | JArr l => match l with [] => false | _ => true end
  | JObj d => match d with [] => false | _ => true end
  end.

(** [a or b]. *)
Definition or_ (a b : json) : json := if truthy a then a else b.

Definition str_of_Z (n : Z) : string := NilZero.string_of_int (Z.to_int n).

(** [str(v)], as an f-string or [%s] formats a value.  The text Python
    prints for a list or a dict is left to [container_str]. *)
Definition str (container_str : json -> string) (v : json) : string :=
  match v with
  | JNull => "None"
  | JBool true => "True"
  | JBool false => "False"
  | JNum n => str_of_Z n
  | JStr s => s
  | JArr _ | JObj _ => container_str v
  end.

(** [v == s] for a string literal [s]: only an equal [str] is equal to it. *)
Definition eq_str (v : json) (s : string) : bool :=
  match v with JStr s' => String.eqb s' s | _ => false end.

(** [v in [s1, ..., sn]] for a list of strings. *)
Definition in_strs (v : json) (l : list string) : bool :=
  existsb (eq_str v) l.

(** The integer a value counts as in a comparison with an [int]; [bool] is a
    subclass of [int]. *)
Definition as_int (v : json) : option Z :=
  match v with
  | JNum n => Some n
  | JBool b => Some (if b then 1 else 0)
  | _ => None
  end.

(** [a == b] on hashable values, as a dict compares its keys. *)
Definition key_eqb (a b : json) : bool :=
  match a, b with
  | JNull, JNull => true
  | JStr s, JStr t => String.eqb s t
  | (JNum _ | JBool _), (JNum _ | JBool _) =>
      match as_int a, as_int b with
      | Some m, Some n => m =? n
      | _, _ => false
      end
  | _, _ => false
  end.

Definition hashable (v : json) : bool :=
  match v with JArr _ | JObj _ => false | _ => true end.

(** [s.rsplit('/', 1)[-1]]: what follows the last slash, or all of [s]. *)
Fixpoint after_last_slash (s : string) : string :=
  match s with
  | EmptyString => EmptyString
  | String c s' =>
      let rest := after_last_slash s' in
      if (existsb (Ascii.eqb "/"%char) (list_ascii_of_string s'))
      then rest
      else if Ascii.eqb c "/"%char then s' else String c s'
  end.

End Py.
Export Py.

(** ** The download client, the service and the trace of effects *)

(** [constants.RequestType], of which this module names [POST], [PUT] and
    [DELETE]. *)
Inductive RequestType : Type := GET | POST | PUT | DELETE.

(** One call [client.get_json(url, post_values=..., request_type=...,
    params=...)].  An argument the caller leaves out is [None]
    ([JNull], or [None] for the verb).  The flag [use_session], [True] at
    every call of the module, is not recorded. *)
Record Request : Type := mkRequest {
  url : string;
  post_values : json;
  request_type : option RequestType;
  params : json
}.

(** Modelled from the spec: the verb of a call that names none, which the
    download client chooses and whose code is not part of this module.  The
    spec has create "POSTs" its payload and the verb be "GET otherwise": a
    call that carries a body is a POST, a call without one is a GET. *)
Definition verb (r : Request) : RequestType :=
  match request_type r with
  | Some t => t
  | None => if is_None (post_values r) then GET else POST
  end.

(** Operations on one of the two [tqdm] bars of the monitor. *)
Inductive BarOp : Type :=
| BarOpen (total : json)
| BarUpdate (delta : Z)
| BarTotal (total : Z)
| BarRefresh
| BarClose.

Inductive Event : Type :=
| Call (r : Request)
| Sleep (seconds : Z)
| LogInfo (format : string) (args : list json)
| Bar (desc : string) (op : BarOp).

Definition Trace : Type := list Event.

(** [config.SHConfig], of which the module reads [sh_base_url] only. *)
Record SHConfig : Type := mkSHConfig { sh_base_url : string }.

(** What the module takes from outside:
    - [service]: the answer of [client.get_json] to a call, given everything
      the program did before it; [inl msg] is a failure the client raises;
    - [SHConfig_default]: the configuration [SHConfig()] loads;
    - [feed_items], [feed_next], [feed_params]: how
      [sh_utils.SentinelHubFeatureIterator] reads the features and the
      continuation token of a page and how it asks for a page;
    - [container_str]: [str] of a list or a dict;
    - [CRS], [BBox], [Geometry]: the constructors of [constants.CRS],
      [geometry.BBox] and [geometry.Geometry], whose values the module hands
      on without looking into them; [inl e] is the exception a constructor
      raises for arguments it does not accept. *)
Record Env : Type := mkEnv {
  service : Trace -> Request -> string + json;
  SHConfig_default : SHConfig;
  feed_items : json -> option (list json);
  feed_next : json -> option json;
  feed_params : json -> option json -> json;
  container_str : json -> string;
  CRS_t : Type;
  BBox_t : Type;
  Geometry_t : Type;
  CRS : string -> exn + CRS_t;
  BBox : json -> CRS_t -> exn + BBox_t;
  Geometry : json -> CRS_t -> exn + Geometry_t
}.

(** ** Computations: state, exceptions and loops *)

Inductive outcome (A : Type) : Type :=
| Return (a : A)
| Raise (e : exn)
| OutOfFuel.
Arguments Return {A} a.
Arguments Raise {A} e.
Arguments OutOfFuel {A}.

(** A computation over a state [S]; an exception keeps the state reached
    when it was raised. *)
Definition M (S A : Type) : Type := S -> outcome A * S.

Definition ret {S A : Type} (a : A) : M S A := fun s => (Return a, s).

Definition raise {S A : Type} (e : exn) : M S A := fun s => (Raise e, s).

Definition out_of_fuel {S A : Type} : M S A := fun s => (OutOfFuel, s).

Definition bind {S A B : Type} (m : M S A) (k : A -> M S B) : M S B :=
  fun s =>
    match m s with
    | (Return a, s') => k a s'
    | (Raise e, s') => (Raise e, s')
    | (OutOfFuel, s') => (OutOfFuel, s')
    end.

Declare Scope eff_scope.
Delimit Scope eff_scope with eff.
Notation "x <- m ;; k" := (bind m (fun x => k))
  (at level 61, m at next level, right associativity) : eff_scope.
Notation "m ;; k" := (bind m (fun _ => k))
  (at level 61, right associativity) : eff_scope.
Local Open Scope eff_scope.

(** [try: m  except: handler], for the exceptions [handler] catches. *)
Definition try_except {S A : Type} (m : M S A) (handler : exn -> option (M S A))
  : M S A :=
  fun s =>
    match m s with
    | (Raise e, s') =>
        match handler e with
        | Some h => h s'
        | None => (Raise e, s')
        end
    | r => r
    end.

(** [with ...: m]: [leave] runs when the block ends, normally or not. *)
Definition with_exit {S A : Type} (m : M S A) (leave : S -> S) : M S A :=
  fun s =>
    match m s with
    | (OutOfFuel, s') => (OutOfFuel, s')
    | (r, s') => (r, leave s')
    end.

(** Static code runs over the trace alone. *)
Definition IO (A : Type) : Type := M Trace A.

Definition emit (e : Event) : IO unit := fun t => (Return tt, (t ++ [e])%list).

(** [v[k]] for a string key. *)
Definition getitem {S : Type} (v : json) (k : string) : M S json :=
  match v with
  | JObj d =>
      match dict_get k d with
      | Some x => ret x
      | None => raise (KeyError k)
      end
  | _ => raise (TypeError "subscript")
  end.

(** [v.get(k, default)]: a method of [dict]. *)
Definition get_default {S : Type} (v : json) (k : string) (default : json)
  : M S json :=
  match v with
  | JObj d =>
      match dict_get k d with
      | Some x => ret x
      | None => ret default
      end
  | _ => raise (AttributeError "get")
  end.

(** A value or the exception raised instead, for code without effects. *)
Definition result (A : Type) : Type := (exn + A)%type.

Definition lift_result {S A : Type} (r : result A) : M S A :=
  match r with
  | inr a => ret a
  | inl e => raise e
  end.

(** The one-character string of a double quote. *)
Definition quote : string := String (ascii_of_nat 34) EmptyString.

(** [v[k]] without effects. *)
Definition subscript (v : json) (k : string) : result json :=
  match v with
  | JObj d =>
      match dict_get k d with
      | Some x => inr x
      | None => inl (KeyError k)
      end
  | _ => inl (TypeError "subscript")
  end.

(** [v[i]] for an index [i]: an element of a list, a character of a string. *)
Definition item_at (v : json) (i : nat) : result json :=
  match v with
  | JArr l =>
      match nth_error l i with
      | Some x => inr x
      | None => inl (IndexError "list index out of range")
      end
  | JStr s =>
      match String.get i s with
      | Some c => inr (JStr (String c EmptyString))
      | None => inl (IndexError "string index out of range")
      end
  | JObj _ => inl (KeyError (str_of_Z (Z.of_nat i)))
  | _ => inl (TypeError "subscript")
  end.

(** Modelled from the spec: [sh_utils.remove_undefined], whose code is not
    part of this module.  The spec has it drop the fields left unset, the
    fields whose value is the unset sentinel ([None], the default of every
    optional parameter here), and keep all others, [False] and [0] included. *)
Definition remove_undefined (payload : dict) : dict :=
  filter (fun kv => negb (is_None (snd kv))) payload.

(** ** The paged feature iterator *)

(** Modelled from the spec: [sh_utils.SentinelHubFeatureIterator], whose code
    is not part of this module.  The spec has it be a lazy single-pass
    sequence over a list endpoint that returns a page of items plus a
    continuation signal, ask for the next page only when the buffered items
    are used up, keep the order of the service, and raise a domain error
    with the message of the call site when the very first page yields no
    results.  [features] holds the items fetched and not yet handed out. *)
Record SentinelHubFeatureIterator : Type := mkIterator {
  it_url : string;
  it_params : json;
  exception_message : string;
  features : list json;
  next_token : option json;
  started : bool;
  finished : bool
}.

Definition new_iterator (url : string) (params : json) (message : string)
  : SentinelHubFeatureIterator :=
  mkIterator url params message [] None false false.

Section Client.

Variable env : Env.

(** [client.get_json]: the call is recorded, then the service answers or the
    client raises. *)
Definition get_json (r : Request) : IO json :=
  fun t =>
    match service env t r with
    | inr j => (Return j, (t ++ [Call r])%list)
    | inl msg => (Raise (DownloadFailedException msg), (t ++ [Call r])%list)
    end.

(** Modelled from the spec: [SentinelHubFeatureIterator.__next__].  A
    buffered item is handed out without a call.  Otherwise, unless the feed
    has ended, one page is fetched with a GET of the iterator's URL; a first
    page without results raises the domain error, and the feed ends with a
    page that has no continuation token or no items. *)
Definition __next__ (it : SentinelHubFeatureIterator)
  : IO (json * SentinelHubFeatureIterator) :=
  match features it with
  | x :: rest =>
      ret (x, mkIterator (it_url it) (it_params it) (exception_message it)
                rest (next_token it) (started it) (finished it))
  | [] =>
      if finished it then raise StopIteration
      else
        page <- get_json (mkRequest (it_url it) JNull None
                            (feed_params env (it_params it) (next_token it)));;
        match feed_items env page with
        | None =>
            if started it then raise StopIteration
            else raise (MissingDataInRequestException (exception_message it))
        | Some [] => raise StopIteration
        | Some (x :: rest) =>
            let token := feed_next env page in
            ret (x, mkIterator (it_url it) (it_params it) (exception_message it)
                      rest token true
                      (match token with None => true | Some _ => false end))
        end
  end.

End Client.

(** ** class SentinelHubBatch *)

Module SentinelHubBatch.

(** The attributes of an instance.  [client] is a download client built from
    [config] and holds nothing besides. *)
Record instance : Type := mkInstance {
  request_id : json;
  config : SHConfig;
  _request_info : json
}.

(** Methods run over the instance they are called on and the trace. *)
Record State : Type := mkState { self : instance; trace : Trace }.

Definition Method (A : Type) : Type := M State A.

Definition liftIO {A : Type} (io : IO A) : Method A :=
  fun s => let (r, t) := io (trace s) in (r, mkState (self s) t).

Definition get_self : Method instance := fun s => (Return (self s), s).

(** The instance with [v] as its cached description. *)
Definition with_request_info (h : instance) (v : json) : instance :=
  mkInstance (request_id h) (config h) v.

(** [self._request_info = v] *)
Definition set_request_info (v : json) : Method unit :=
  fun s => (Return tt, mkState (with_request_info (self s) v) (trace s)).

(** The first argument of [create]: a [SentinelHubRequest], of which the
    method reads the [post_values] of the requests in [download_list], or
    any other value. *)
Inductive request_arg : Type :=
| ASentinelHubRequest (download_list : list json)
| ARequestValue (v : json).

(** A collection handed to the collection methods: a [BatchCollection], of
    which they read [collection_id] and the dict [to_dict()] renders, a
    [DataCollection], of which they read [collection_id] and print the
    text [str] gives, or any other value. *)
Inductive collection_arg : Type :=
| ABatchCollection (collection_id : json) (to_dict : dict)
| ADataCollection (collection_id : json) (text : string)
| ACollectionValue (v : json).

(** The [status] argument of [raise_for_status]: [str or list(str)]. *)
Inductive status_arg : Type :=
| AStatus (s : string)
| AStatuses (l : list string).

Section Class.

Variable env : Env.

Abbreviation str := (Py.str (container_str env)).

(** *** URL builders *)

(** [config or SHConfig()] *)
Definition config_or_default (config : option SHConfig) : SHConfig :=
  match config with Some c => c | None => SHConfig_default env end.

Definition _get_batch_url (config : option SHConfig) : string :=
  let config := config_or_default config in
  sh_base_url config ++ "/api/v1/batch".

Definition _get_process_url (config : option SHConfig) (request_id : json)
  : string :=
  let url := _get_batch_url config ++ "/process" in
  if truthy request_id then url ++ "/" ++ str request_id else url.

Definition _get_tiling_grids_url (config : option SHConfig) : string :=
  _get_batch_url config ++ "/tilinggrids".

Definition _get_collections_url (config : option SHConfig) : string :=
  _get_batch_url config ++ "/collections".

Definition _get_tiles_url (self : instance) (tile_id : json) : string :=
  let process_url := _get_process_url (Some (config self)) (request_id self) in
  let url := process_url ++ "/tiles" in
  if truthy tile_id then url ++ "/" ++ str tile_id else url.

(** *** Construction *)

Definition __init__ (request_id request_info : json) (config : option SHConfig)
  : result instance :=
  if negb (truthy (or_ request_id request_info)) then
    inl (ValueError
           "One of the parameters request_id and request_info has to be given")
  else
    match (if truthy request_id then inr request_id
           else subscript request_info "id") with
    | inl e => inl e
    | inr id =>
        inr (mkInstance id (config_or_default config) request_info)
    end.

(** The payload [create] sends: the dict display of its arguments, cleaned. *)
Definition create_payload (sentinelhub_request tiling_grid output bucket_name
                           description : json) (kwargs : dict) : dict :=
  remove_undefined
    (dict_literal
       ([("processRequest", sentinelhub_request);
         ("tilingGrid", tiling_grid);
         ("output", output);
         ("bucketName", bucket_name);
         ("description", description)] ++ kwargs)).

Definition create (sentinelhub_request : request_arg)
                  (tiling_grid output bucket_name description : json)
                  (config : option SHConfig) (kwargs : dict) : IO instance :=
  sentinelhub_request <-
    match sentinelhub_request with
    | ASentinelHubRequest download_list =>
        match download_list with
        | first :: _ => ret first
        | [] => raise (IndexError "list index out of range")
        end
    | ARequestValue v => ret v
    end;;
  match sentinelhub_request with
  | JObj _ =>
      let payload := create_payload sentinelhub_request tiling_grid output
                       bucket_name description kwargs in
      let url := _get_process_url config JNull in
      request_info <- get_json env (mkRequest url (JObj payload) None JNull);;
      lift_result (__init__ JNull request_info config)
  | _ =>
      raise (ValueError
               ("Parameter sentinelhub_request should be an instance of "
                ++ "SentinelHubRequest or a dictionary with a request payload"))
  end.

Definition tiling_grid (grid_id resolution buffer : json) (kwargs : dict)
  : result dict :=
  let payload := dict_literal ([("id", grid_id); ("resolution", resolution)]
                               ++ kwargs) in
  if truthy buffer then
    match item_at buffer 0, item_at buffer 1 with
    | inl e, _ => inl e
    | inr _, inl e => inl e
    | inr x, inr y =>
        inr (dict_literal (payload ++ [("bufferX", x); ("bufferY", y)]))
    end
  else inr payload.

Definition output (default_tile_path overwrite skip_existing cog_output
                   cog_parameters create_collection collection_id responses
                   : json) (kwargs : dict) : dict :=
  remove_undefined
    (dict_literal
       ([("defaultTilePath", default_tile_path);
         ("overwrite", overwrite);
         ("skipExisting", skip_existing);
         ("cogOutput", cog_output);
         ("cogParameters", cog_parameters);
         ("createCollection", create_collection);
         ("collectionId", collection_id);
         ("responses", responses)] ++ kwargs)).

Definition iter_tiling_grids (config : option SHConfig) (kwargs : dict)
  : SentinelHubFeatureIterator :=
  new_iterator (_get_tiling_grids_url config) (JObj (remove_undefined kwargs))
    "Failed to obtain information about available tiling grids".

Definition get_tiling_grid (grid_id : json) (config : option SHConfig)
  : IO json :=
  let url := _get_tiling_grids_url config ++ "/" ++ str grid_id in
  get_json env (mkRequest url JNull None JNull).

(** *** The cached description *)

Definition update_info : Method unit :=
  self <- get_self;;
  let url := _get_process_url (Some (config self)) (request_id self) in
  request_info <- liftIO (get_json env (mkRequest url JNull None JNull));;
  set_request_info request_info.

(** The property [info]: loads the description only if none is held yet. *)
Definition info : Method json :=
  self <- get_self;;
  (if is_None (_request_info self) then update_info else ret tt);;
  self <- get_self;;
  ret (_request_info self).

Definition evalscript : Method json :=
  i <- info;;
  process_request <- getitem i "processRequest";;
  getitem process_request "evalscript".

(** The CRS is built, and may be refused, before the two fields are read. *)
Definition _parse_bounds_payload : Method (json * json * CRS_t env) :=
  i <- info;;
  process_request <- getitem i "processRequest";;
  input <- getitem process_request "input";;
  bounds_definition <- getitem input "bounds";;
  properties <- getitem bounds_definition "properties";;
  crs <- getitem properties "crs";;
  match crs with
  | JStr s =>
      crs <- lift_result (CRS env (after_last_slash s));;
      bbox <- get_default bounds_definition "bbox" JNull;;
      geometry <- get_default bounds_definition "geometry" JNull;;
      ret (bbox, geometry, crs)
  | _ => raise (AttributeError "rsplit")
  end.

Definition bbox : Method (BBox_t env) :=
  parsed <- _parse_bounds_payload;;
  let '(bbox, _, crs) := parsed in
  if is_None bbox then
    raise (ValueError "Bounding box is not defined for this batch request")
  else lift_result (BBox env bbox crs).

Definition geometry : Method (Geometry_t env) :=
  parsed <- _parse_bounds_payload;;
  let '(_, geometry, crs) := parsed in
  if is_None geometry then
    raise (ValueError "Geometry is not defined for this batch request")
  else lift_result (Geometry env geometry crs).

(** *** Requests *)

(** The generator [iter_requests] returns: the iterator it loops over and
    the configuration of the instances it yields. *)
Record requests_generator : Type := mkGenerator {
  feature_iterator : SentinelHubFeatureIterator;
  generator_config : option SHConfig
}.

Definition iter_requests (user_id search sort : json) (config : option SHConfig)
                         (kwargs : dict) : requests_generator :=
  let url := _get_process_url config JNull in
  let params := remove_undefined
                  (dict_literal ([("userid", user_id);
                                  ("search", search);
                                  ("sort", sort)] ++ kwargs)) in
  mkGenerator (new_iterator url (JObj params) "No requests found") config.

(** [next(generator)]: the loop body up to its [yield]; the end of the
    iterator ends the generator, which raises [StopIteration] in turn. *)
Definition next (g : requests_generator) : IO (instance * requests_generator) :=
  step <- __next__ env (feature_iterator g);;
  let '(request_info, it) := step in
  batch <- lift_result (__init__ JNull request_info (generator_config g));;
  ret (batch, mkGenerator it (generator_config g)).

Definition get_latest_request (config : option SHConfig) : IO instance :=
  let latest_request_iter :=
    iter_requests JNull JNull (JStr "created:desc") config [("count", JNum 1)] in
  try_except
    (step <- next latest_request_iter;; ret (fst step))
    (fun e =>
       match e with
       | StopIteration => Some (raise (ValueError "No batch request is available"))
       | _ => None
       end).

Definition update (output description : json) (kwargs : dict) : Method unit :=
  self <- get_self;;
  let payload := remove_undefined
                   (dict_literal ([("output", output);
                                   ("description", description)] ++ kwargs)) in
  let url := _get_process_url (Some (config self)) (request_id self) in
  request_info <-
    liftIO (get_json env (mkRequest url (JObj payload) (Some PUT) JNull));;
  set_request_info request_info.

Definition delete : Method json :=
  self <- get_self;;
  let url := _get_process_url (Some (config self)) (request_id self) in
  liftIO (get_json env (mkRequest url JNull (Some DELETE) JNull)).

Definition _call_job (endpoint_name : string) : Method json :=
  self <- get_self;;
  let process_url := _get_process_url (Some (config self)) (request_id self) in
  let url := process_url ++ "/" ++ endpoint_name in
  liftIO (get_json env (mkRequest url JNull (Some POST) JNull)).

Definition start_analysis : Method json := _call_job "analyse".

Definition start_job : Method json := _call_job "start".

Definition cancel_job : Method json := _call_job "cancel".

Definition restart_job : Method json := _call_job "restartpartial".

(** The text of the error [raise_for_status] raises. *)
Definition status_error_message (request_id batch_status error_message : json)
  : string :=
  let formatted_error_message :=
    if truthy error_message
    then " and error message: " ++ quote ++ str error_message ++ quote
    else "" in
  "Raised for batch request " ++ str request_id ++ " with status "
    ++ str batch_status ++ formatted_error_message.

Definition raise_for_status (status : status_arg) : Method unit :=
  let status := match status with AStatus s => [s] | AStatuses l => l end in
  i <- info;;
  batch_status <- getitem i "status";;
  if in_strs batch_status status then
    i <- info;;
    error_message <- get_default i "error" (JStr "");;
    self <- get_self;;
    raise (RuntimeError
             (status_error_message (request_id self) batch_status error_message))
  else ret tt.

(** *** Tiles *)

Definition iter_tiles (self : instance) (status : json) (kwargs : dict)
  : SentinelHubFeatureIterator :=
  new_iterator (_get_tiles_url self JNull)
    (JObj (dict_literal (("status", status) :: kwargs)))
    ("No tiles found, please run analysis on batch request before calling "
     ++ "this method").

Definition get_tile (tile_id : json) : Method json :=
  self <- get_self;;
  let url := _get_tiles_url self tile_id in
  liftIO (get_json env (mkRequest url JNull None JNull)).

Definition reprocess_tile (tile_id : json) : Method unit :=
  _call_job ("tiles/" ++ str tile_id ++ "/restart");;
  ret tt.

(** *** Collections *)

Definition _parse_collection_id (data : collection_arg) : result json :=
  match data with
  | ABatchCollection collection_id _ => inr collection_id
  | ADataCollection collection_id _ => inr collection_id
  | ACollectionValue (JObj d) => subscript (JObj d) "id"
  | ACollectionValue (JStr s) => inr (JStr s)
  | ACollectionValue v =>
      inl (ValueError
             ("Expected a BatchCollection dataclass, dictionary or a string, got "
              ++ str v ++ "."))
  end.

Definition _to_dict (data : collection_arg) : result json :=
  match data with
  | ABatchCollection _ to_dict => inr (JObj to_dict)
  | ACollectionValue (JObj d) => inr (JObj d)
  | ADataCollection _ text =>
      inl (ValueError
             ("Expected either a BatchCollection or a dict, got " ++ text ++ "."))
  | ACollectionValue v =>
      inl (ValueError
             ("Expected either a BatchCollection or a dict, got " ++ str v ++ "."))
  end.

Definition iter_collections (search : json) (config : option SHConfig)
                            (kwargs : dict) : SentinelHubFeatureIterator :=
  new_iterator (_get_collections_url config)
    (JObj (dict_literal (("search", search) :: kwargs)))
    "Failed to obtain information about available Batch collections".

Definition get_collection (collection_id : json) (config : option SHConfig)
  : IO json :=
  let url := _get_collections_url config ++ "/" ++ str collection_id in
  response <- get_json env (mkRequest url JNull None JNull);;
  getitem response "data".

Definition create_collection (collection : collection_arg)
                             (config : option SHConfig) : IO json :=
  let url := _get_collections_url config in
  collection_payload <- lift_result (_to_dict collection);;
  response <- get_json env (mkRequest url collection_payload None JNull);;
  getitem response "data".

Definition update_collection (collection : collection_arg)
                             (config : option SHConfig) : IO json :=
  collection_id <- lift_result (_parse_collection_id collection);;
  let url := _get_collections_url config ++ "/" ++ str collection_id in
  collection_payload <- lift_result (_to_dict collection);;
  get_json env (mkRequest url collection_payload (Some PUT) JNull).

Definition delete_collection (collection : collection_arg)
                             (config : option SHConfig) : IO json :=
  collection_id <- lift_result (_parse_collection_id collection);;
  let url := _get_collections_url config ++ "/" ++ str collection_id in
  get_json env (mkRequest url JNull (Some DELETE) JNull).

End Class.

End SentinelHubBatch.

(** ** Module-level functions *)

(** The dict [get_batch_tiles_per_status] builds: its keys are the statuses
    of the tiles, whatever values the service sends for them. *)
Definition tiles_dict : Type := list (json * list json).

Fixpoint tiles_get (k : json) (d : tiles_dict) : option (list json) :=
  match d with
  | [] => None
  | (k', v) :: d' => if key_eqb k k' then Some v else tiles_get k d'
  end.

Fixpoint tiles_set (k : json) (v : list json) (d : tiles_dict) : tiles_dict :=
  match d with
  | [] => [(k, v)]
  | (k', v') :: d' =>
      if key_eqb k k' then (k', v) :: d' else (k', v') :: tiles_set k v d'
  end.

(** [len(tiles_per_status.get(status, []))] *)
Definition tiles_count (status : string) (d : tiles_dict) : Z :=
  match tiles_get (JStr status) d with
  | Some l => Z.of_nat (length l)
  | None => 0
  end.

(** What the sampling loop of the monitor assigns and the code after the
    loop reads. *)
Record sample : Type := mkSample {
  tiles_per_status : tiles_dict;
  processed_tiles_num : Z;
  failed_tiles_num : Z
}.

Section Monitor.

Import SentinelHubBatch.

Variable env : Env.

Definition log (format : string) (args : list json) : Method unit :=
  liftIO (emit (LogInfo format args)).

(** [time.sleep] refuses a negative length. *)
Definition sleep (seconds : Z) : Method unit :=
  if seconds <? 0 then raise (ValueError "sleep length must be non-negative")
  else liftIO (emit (Sleep seconds)).

Definition bar (desc : string) (op : BarOp) : Method unit :=
  liftIO (emit (Bar desc op)).

(** One step of a [for] loop over the iterator: the next item, or [None]
    when the iterator raises [StopIteration]. *)
Definition for_next (it : SentinelHubFeatureIterator)
  : Method (option (json * SentinelHubFeatureIterator)) :=
  try_except
    (step <- liftIO (__next__ env it);; ret (Some step))
    (fun e => match e with StopIteration => Some (ret None) | _ => None end).

Fixpoint tiles_loop (fuel : nat) (it : SentinelHubFeatureIterator)
                    (tiles_per_status : tiles_dict) : Method tiles_dict :=
  match fuel with
  | O => out_of_fuel
  | S fuel' =>
      step <- for_next it;;
      match step with
      | None => ret tiles_per_status
      | Some (tile, it') =>
          status <- getitem tile "status";;
          if hashable status then
            let bucket := match tiles_get status tiles_per_status with
                          | Some l => l
                          | None => []
                          end in
            let tiles_per_status := tiles_set status bucket tiles_per_status in
            tiles_loop fuel' it'
              (tiles_set status (bucket ++ [tile])%list tiles_per_status)
          else raise (TypeError "unhashable type")
      end
  end.

Definition get_batch_tiles_per_status (fuel : nat) : Method tiles_dict :=
  batch_request <- get_self;;
  tiles_loop fuel (iter_tiles env batch_request JNull []) [].

(** [a < v] for an [int] [a]. *)
Definition lt_int (a : Z) (v : json) : result bool :=
  match as_int v with
  | Some n => inr (a <? n)
  | None => inl (TypeError "<")
  end.

(** The first loop of [monitor_batch_job]: while the job is being analysed. *)
Fixpoint wait_for_analysis (fuel : nat) (analysis_sleep_time : Z)
                           (status : json) : Method json :=
  if in_strs status ["CREATED"; "ANALYSING"; "ANALYSIS_DONE"] then
    match fuel with
    | O => out_of_fuel
    | S fuel' =>
        log "Batch job has a status %s, sleeping for %d seconds"
          [status; JNum analysis_sleep_time];;
        sleep analysis_sleep_time;;
        update_info env;;
        i <- info env;;
        status <- getitem i "status";;
        wait_for_analysis fuel' analysis_sleep_time status
    end
  else ret status.

(** The second loop: [last] is [None] until the body has run once. *)
Fixpoint sampling_loop (fuel : nat) (sleep_time : Z) (total_tile_count : json)
                       (finished_count success_count : Z)
                       (last : option sample) : Method (option sample) :=
  continue <- lift_result (lt_int finished_count total_tile_count);;
  if continue then
    match fuel with
    | O => out_of_fuel
    | S fuel' =>
        tiles_per_status <- get_batch_tiles_per_status fuel;;
        let processed_tiles_num := tiles_count "PROCESSED" tiles_per_status in
        let failed_tiles_num := tiles_count "FAILED" tiles_per_status in
        let new_success_count := processed_tiles_num in
        let new_finished_count := processed_tiles_num + failed_tiles_num in
        bar "Progress rate" (BarUpdate (new_finished_count - finished_count));;
        (if new_finished_count =? finished_count then ret tt
         else bar "Success rate" (BarTotal new_finished_count);;
              bar "Success rate" BarRefresh);;
        bar "Success rate" (BarUpdate (new_success_count - success_count));;
        let finished_count := new_finished_count in
        let success_count := new_success_count in
        again <- lift_result (lt_int finished_count total_tile_count);;
        (if again then sleep sleep_time else ret tt);;
        sampling_loop fuel' sleep_time total_tile_count finished_count
          success_count
          (Some (mkSample tiles_per_status processed_tiles_num failed_tiles_num))
    end
  else ret last.

(** Leaving the [with] block closes both bars, the inner one first. *)
Definition close_bars (s : State) : State :=
  mkState (self s)
    (trace s ++ [Bar "Success rate" BarClose; Bar "Progress rate" BarClose])%list.

(** The start of [monitor_batch_job], up to the end of its first loop: the
    status with which the job leaves the analysis. *)
Definition analysis_phase (fuel : nat) (analysis_sleep_time : Z) : Method json :=
  update_info env;;
  i <- info env;;
  status <- getitem i "status";;
  wait_for_analysis fuel analysis_sleep_time status.

Definition monitor_batch_job (fuel : nat) (sleep_time analysis_sleep_time : Z)
  : Method tiles_dict :=
  status <- analysis_phase fuel analysis_sleep_time;;
  raise_for_status env (AStatuses ["FAILED"; "CANCELED"]);;
  (if eq_str status "PROCESSING" then log "Batch job is running" []
   else ret tt);;
  let finished_count := 0 in
  let success_count := 0 in
  i <- info env;;
  total_tile_count <- getitem i "tileCount";;
  bar "Progress rate" (BarOpen total_tile_count);;
  bar "Success rate" (BarOpen (JNum finished_count));;
  last <- with_exit
            (sampling_loop fuel sleep_time total_tile_count finished_count
               success_count None)
            close_bars;;
  match last with
  | None => raise (UnboundLocalError "failed_tiles_num")
  | Some last =>
      (if failed_tiles_num last =? 0 then ret tt
       else log "Batch job failed for %d tiles"
              [JNum (processed_tiles_num last)]);;
      ret (tiles_per_status last)
  end.

End Monitor.

(** ** The calls a caller can make on an instance *)

Inductive method_call : Type :=
| m_update_info
| m_info
| m_evalscript
| m_bbox
| m_geometry
| m_update (output description : json) (kwargs : dict)
| m_delete
| m_start_analysis
| m_start_job
| m_cancel_job
| m_restart_job
| m_raise_for_status (status : SentinelHubBatch.status_arg)
| m_get_tile (tile_id : json)
| m_reprocess_tile (tile_id : json).

(** The state a computation leaves, whatever it returns or raises. *)
Definition after {S A : Type} (m : M S A) (s : S) : S := snd (m s).

Definition invoke (env : Env) (c : method_call)
  : SentinelHubBatch.State -> SentinelHubBatch.State :=
  match c with
  | m_update_info => after (SentinelHubBatch.update_info env)
  | m_info => after (SentinelHubBatch.info env)
  | m_evalscript => after (SentinelHubBatch.evalscript env)
  | m_bbox => after (SentinelHubBatch.bbox env)
  | m_geometry => after (SentinelHubBatch.geometry env)
  | m_update output description kwargs =>
      after (SentinelHubBatch.update env output description kwargs)
  | m_delete => after (SentinelHubBatch.delete env)
  | m_start_analysis => after (SentinelHubBatch.start_analysis env)
  | m_start_job => after (SentinelHubBatch.start_job env)
  | m_cancel_job => after (SentinelHubBatch.cancel_job env)
  | m_restart_job => after (SentinelHubBatch.restart_job env)
  | m_raise_for_status status =>
      after (SentinelHubBatch.raise_for_status env status)
  | m_get_tile tile_id => after (SentinelHubBatch.get_tile env tile_id)
  | m_reprocess_tile tile_id =>
      after (SentinelHubBatch.reprocess_tile env tile_id)
  end.

(** ** A service to run the client against *)

Module Scenario.

Import SentinelHubBatch.

(** Pages of the form [{"data": [...], "links": {"nextToken": ...}}], the
    token of the next page sent as the query parameter [viewtoken]. *)
Definition items (page : json) : option (list json) :=
  match page with
  | JObj d =>
      match dict_get "data" d with
      | Some (JArr l) => Some l
      | _ => None
      end
  | _ => None
  end.

Definition next_page (page : json) : option json :=
  match page with
  | JObj d =>
      match dict_get "links" d with
      | Some (JObj links) =>
          match dict_get "nextToken" links with
          | Some JNull => None
          | token => token
          end
      | _ => None
      end
  | _ => None
  end.

Definition page_params (params : json) (token : option json) : json :=
  match params, token with
  | JObj d, Some t => JObj (dict_set "viewtoken" t d)
  | _, _ => params
  end.

(** How many calls of the URL [u] a trace holds. *)
Fixpoint calls_to (u : string) (t : Trace) : nat :=
  match t with
  | [] => 0%nat
  | Call r :: t' => ((if String.eqb (url r) u then 1 else 0) + calls_to u t')%nat
  | _ :: t' => calls_to u t'
  end.

(** A service that answers the n-th call of a URL with the n-th answer of
    its script, the last one from then on, and fails on any other URL. *)
Definition scripted (script : list (string * list json))
  : Trace -> Request -> string + json :=
  fun t r =>
    match find (fun entry => String.eqb (url r) (fst entry)) script with
    | None => inl "404 Not Found"
    | Some (_, answers) =>
        inr (nth (calls_to (url r) t) answers (last answers JNull))
    end.

Definition sh_config : SHConfig := mkSHConfig "https://services.sentinel-hub.com".

Definition jobs_url : string :=
  "https://services.sentinel-hub.com/api/v1/batch/process".

Definition job_url : string := jobs_url ++ "/job1".

Definition tiles_url : string := job_url ++ "/tiles".

Definition job (status : string) (tile_count : Z) : json :=
  JObj [("id", JStr "job1"); ("status", JStr status);
        ("tileCount", JNum tile_count)].

Definition tile (id : Z) (status : string) : json :=
  JObj [("id", JNum id); ("status", JStr status)].

Definition page (l : list json) : json :=
  JObj [("data", JArr l); ("links", JObj [])].

(** Stand-ins for the geometry types: a CRS is its EPSG code, of which two
    are known; a bounding box is a list of four numbers and a geometry a
    GeoJSON object, each kept with its CRS. *)
Definition crs_of (code : string) : exn + string :=
  if existsb (String.eqb code) ["4326"; "3857"] then inr code
  else inl (ValueError ("'" ++ code ++ "' is not a valid CRS")).

Definition bbox_of (box : json) (crs : string) : exn + (json * string) :=
  match box with
  | JArr [JNum _; JNum _; JNum _; JNum _] => inr (box, crs)
  | _ => inl (ValueError "Unable to process the bounding box")
  end.

Definition geometry_of (geometry : json) (crs : string)
  : exn + (json * string) :=
  match geometry with
  | JObj _ => inr (geometry, crs)
  | _ => inl (ValueError "Unable to process the geometry")
  end.

Definition environment (script : list (string * list json)) : Env :=
  mkEnv (scripted script) sh_config items next_page page_params
    (fun _ => "[...]") string (json * string) (json * string)
    crs_of bbox_of geometry_of.

(** A handle of job1 that holds no description yet. *)
Definition job1 : instance := mkInstance (JStr "job1") sh_config JNull.

(** Three tiles, of which the second sample finds two processed and one
    failed. *)
Definition three_tiles : Env :=
  environment
    [(job_url, [job "CREATED" 3; job "ANALYSING" 3; job "PROCESSING" 3]);
     (tiles_url,
      [page [tile 1 "PROCESSED"; tile 2 "PENDING"; tile 3 "FAILED"];
       page [tile 1 "PROCESSED"; tile 2 "PROCESSED"; tile 3 "FAILED"]])].

(** The analysis of the job fails. *)
Definition failed_job : json :=
  JObj [("id", JStr "job1"); ("status", JStr "FAILED");
        ("error", JStr "Out of processing units")].

Definition failed_analysis : Env :=
  environment [(job_url, [job "CREATED" 3; job "ANALYSING" 3; failed_job])].

(** The analysis finds no tile. *)
Definition no_tiles : Env :=
  environment [(job_url, [job "ANALYSING" 0; job "PROCESSING" 0]);
               (tiles_url, [page []])].

(** The feed of jobs, empty or with one job. *)
Definition no_jobs : Env := environment [(jobs_url, [page []])].

Definition one_job : Env := environment [(jobs_url, [page [job "DONE" 3]])].

End Scenario.

(** The call [update_info] makes for the handle [h]. *)
Definition info_request (env : Env) (h : SentinelHubBatch.instance) : Request :=
  mkRequest
    (SentinelHubBatch._get_process_url env
       (Some (SentinelHubBatch.config h)) (SentinelHubBatch.request_id h))
    JNull None JNull.

(** The calls a trace holds, in order: the verb and the URL of each. *)
Fixpoint calls_of (t : Trace) : list (RequestType * string) :=
  match t with
  | [] => []
  | Call r :: t' => (verb r, url r) :: calls_of t'
  | _ :: t' => calls_of t'
  end.

(** * Properties *)

Import SentinelHubBatch.

(** ** Dicts and dict displays *)

Section DictFacts.

Lemma dict_get_app k d1 d2 :
  dict_get k (d1 ++ d2)%list =
  match dict_get k d1 with Some v => Some v | None => dict_get k d2 end.
Proof.
  induction d1 as [|[k' v'] d1 IH]; simpl; [reflexivity|].
  destruct (String.eqb k k'); [reflexivity | exact IH].
Qed.

Lemma dict_get_set_same k v d : dict_get k (dict_set k v d) = Some v.
Proof.
  induction d as [|[k' v'] d IH]; simpl.
  - now rewrite String.eqb_refl.
  - destruct (String.eqb k k') eqn:E; simpl; rewrite E; [reflexivity | exact IH].
Qed.

Lemma dict_get_set_other k k' v d :
  k <> k' -> dict_get k (dict_set k' v d) = dict_get k d.
Proof.
  intros Hne. apply String.eqb_neq in Hne.
  induction d as [|[k1 v1] d IH]; simpl.
  - now rewrite Hne.
  - destruct (String.eqb k' k1) eqn:E; simpl.
    + apply String.eqb_eq in E. subst k1. now rewrite Hne.
    + destruct (String.eqb k k1); [reflexivity | exact IH].
Qed.

Lemma dict_get_None_keys k d : dict_get k d = None <-> ~ In k (keys d).
Proof.
  induction d as [|[k' v'] d IH]; simpl.
  - tauto.
  - destruct (String.eqb_spec k k') as [->|Hne].
    + split; [discriminate | intros H; exfalso; apply H; now left].
    + rewrite IH. split; [intros H [E|Hin]; [congruence | tauto] | tauto].
Qed.

Lemma keys_dict_set k v d k' :
  In k' (keys (dict_set k v d)) <-> k' = k \/ In k' (keys d).
Proof.
  induction d as [|[k1 v1] d IH]; simpl.
  - intuition congruence.
  - destruct (String.eqb_spec k k1) as [->|Hne]; simpl.
    + intuition congruence.
    + rewrite IH. intuition congruence.
Qed.

Lemma NoDup_dict_set k v d : NoDup (keys d) -> NoDup (keys (dict_set k v d)).
Proof.
  induction d as [|[k1 v1] d IH]; simpl; intros Hnd.
  - constructor; [intros [] | constructor].
  - inversion Hnd as [|? ? Hnotin Hnd']; subst.
    destruct (String.eqb_spec k k1) as [->|Hne]; simpl.
    + now constructor.
    + constructor; [|now apply IH].
      rewrite keys_dict_set. intros [E|Hin]; [congruence | contradiction].
Qed.

Lemma dict_get_fold k es d0 :
  dict_get k (fold_left (fun d kv => dict_set (fst kv) (snd kv) d) es d0) =
  match dict_get k (rev es) with Some v => Some v | None => dict_get k d0 end.
Proof.
  revert d0. induction es as [|[k1 v1] es IH]; intros d0; simpl; [reflexivity|].
  rewrite IH, dict_get_app. destruct (dict_get k (rev es)); [reflexivity|].
  simpl. destruct (String.eqb_spec k k1) as [->|Hne].
  - apply dict_get_set_same.
  - now apply dict_get_set_other.
Qed.

Lemma NoDup_fold es d0 :
  NoDup (keys d0) ->
  NoDup (keys (fold_left (fun d kv => dict_set (fst kv) (snd kv) d) es d0)).
Proof.
  revert d0. induction es as [|e es IH]; intros d0 H; simpl; [exact H|].
  apply IH. now apply NoDup_dict_set.
Qed.

(** A dict display holds, for each key, the last entry written for it. *)
Lemma dict_get_literal k es :
  dict_get k (dict_literal es) = dict_get k (rev es).
Proof.
  unfold dict_literal. rewrite dict_get_fold. now destruct (dict_get k (rev es)).
Qed.

Lemma NoDup_literal es : NoDup (keys (dict_literal es)).
Proof. apply NoDup_fold. constructor. Qed.

(** In a dict, as Python builds them, every key occurs once: looking a key
    up from either end finds the same entry. *)
Lemma dict_get_rev k d : NoDup (keys d) -> dict_get k (rev d) = dict_get k d.
Proof.
  induction d as [|[k1 v1] d IH]; simpl; intros Hnd; [reflexivity|].
  inversion Hnd as [|? ? Hnotin Hnd']; subst.
  rewrite dict_get_app, IH by assumption. simpl.
  destruct (String.eqb_spec k k1) as [->|Hne].
  - apply dict_get_None_keys in Hnotin. now rewrite Hnotin.
  - now destruct (dict_get k d).
Qed.

Lemma remove_undefined_get k d :
  NoDup (keys d) ->
  dict_get k (remove_undefined d) =
  match dict_get k d with
  | Some v => if is_None v then None else Some v
  | None => None
  end.
Proof.
  unfold remove_undefined.
  induction d as [|[k1 v1] d IH]; simpl; intros Hnd; [reflexivity|].
  inversion Hnd as [|? ? Hnotin Hnd']; subst.
  destruct (String.eqb_spec k k1) as [->|Hne].
  - destruct (is_None v1) eqn:E; simpl.
    + rewrite IH by assumption.
      apply dict_get_None_keys in Hnotin. now rewrite Hnotin.
    + now rewrite String.eqb_refl.
  - destruct (is_None v1); simpl; [now apply IH|].
    apply String.eqb_neq in Hne. rewrite Hne. now apply IH.
Qed.

Lemma remove_undefined_no_None k d : dict_get k (remove_undefined d) <> Some JNull.
Proof.
  unfold remove_undefined.
  induction d as [|[k1 v1] d IH]; simpl; [discriminate|].
  destruct (is_None v1) eqn:E; simpl; [exact IH|].
  destruct (String.eqb k k1); [|exact IH].
  intros H. injection H as ->. discriminate.
Qed.

(** What a cleaned dict display [remove_undefined({named..., **kwargs})]
    holds for a key. *)
Lemma cleaned_literal_get k named kwargs :
  dict_get k (remove_undefined (dict_literal (named ++ kwargs))) =
  match (match dict_get k (rev kwargs) with
         | Some v => Some v
         | None => dict_get k (rev named)
         end) with
  | Some v => if is_None v then None else Some v
  | None => None
  end.
Proof.
  rewrite remove_undefined_get by apply NoDup_literal.
  now rewrite dict_get_literal, rev_app_distr, dict_get_app.
Qed.

End DictFacts.

(** ** Construction of a handle *)

Section Construction.

Variable env : Env.

(** C2, as the code has it: the constructor needs at least one of
    [request_id] and [request_info].  With neither (each [None] or empty) it
    raises the [ValueError]; with a [request_id] it succeeds whatever
    [request_info] is, a description given besides being kept as the cached
    one; with a description alone it succeeds when the description carries
    its id, which becomes the identifier. *)
Theorem init_needs_id_or_info (request_id request_info : json)
                              (config : option SHConfig) :
  (truthy request_id = false -> truthy request_info = false ->
   __init__ env request_id request_info config =
   inl (ValueError
          "One of the parameters request_id and request_info has to be given"))
  /\ (truthy request_id = true ->
      __init__ env request_id request_info config =
      inr (mkInstance request_id (config_or_default env config) request_info))
  /\ (forall d id,
        truthy request_id = false -> request_info = JObj d ->
        dict_get "id" d = Some id ->
        __init__ env request_id request_info config =
        inr (mkInstance id (config_or_default env config) request_info)).
Proof.
  unfold __init__, or_.
  split; [|split].
  - intros H1 H2. rewrite H1. cbv iota. now rewrite H2.
  - intros H1. rewrite H1. cbv iota. now rewrite H1.
  - intros d id H1 -> Hid. rewrite H1.
    destruct d as [|kv d]; [discriminate|].
    cbn [truthy negb subscript]. now rewrite Hid.
Qed.

End Construction.

(** An identifier alone, a description alone, and neither of the two. *)
Lemma init_needs_id_or_info_witness :
  __init__ Scenario.no_jobs (JStr "job1") JNull None =
    inr Scenario.job1
  /\ __init__ Scenario.no_jobs JNull (Scenario.job "DONE" 3) None =
       inr (mkInstance (JStr "job1") Scenario.sh_config (Scenario.job "DONE" 3))
  /\ __init__ Scenario.no_jobs JNull JNull None =
       inl (ValueError
              "One of the parameters request_id and request_info has to be given").
Proof.
  destruct (init_needs_id_or_info Scenario.no_jobs (JStr "job1") JNull None)
    as (_ & Hid & _).
  destruct (init_needs_id_or_info Scenario.no_jobs JNull
              (Scenario.job "DONE" 3) None) as (_ & _ & Hinfo).
  destruct (init_needs_id_or_info Scenario.no_jobs JNull JNull None)
    as (Hnone & _ & _).
  split; [|split].
  - exact (Hid eq_refl).
  - exact (Hinfo _ _ eq_refl eq_refl eq_refl).
  - exact (Hnone eq_refl eq_refl).
Defined.

(** C2, as the claim states it, fails: a constructor given both an
    identifier and a description does not raise; it returns the handle of the
    identifier, with the description as its cache. *)
Lemma init_with_both_succeeds :
  __init__ Scenario.no_jobs (JStr "job1") (Scenario.job "DONE" 3) None =
  inr (mkInstance (JStr "job1") Scenario.sh_config (Scenario.job "DONE" 3)).
Proof. reflexivity. Qed.

(** ** Payloads *)

Section Payloads.

Lemma dict_get_rev_None k d : dict_get k d = None -> dict_get k (rev d) = None.
Proof.
  rewrite !dict_get_None_keys. unfold keys. rewrite map_rev, <- in_rev. tauto.
Qed.

(** A named parameter of a cleaned dict display, when no extra keyword
    argument has its key. *)
Lemma cleaned_literal_named k v named kwargs :
  dict_get k (rev named) = Some v -> dict_get k kwargs = None ->
  dict_get k (remove_undefined (dict_literal (named ++ kwargs))) =
  if is_None v then None else Some v.
Proof.
  intros Hnamed Hkw. rewrite cleaned_literal_get.
  now rewrite (dict_get_rev_None _ _ Hkw), Hnamed.
Qed.

(** An extra keyword argument of a cleaned dict display. *)
Lemma cleaned_literal_kwarg k v named kwargs :
  NoDup (keys kwargs) -> dict_get k kwargs = Some v ->
  dict_get k (remove_undefined (dict_literal (named ++ kwargs))) =
  if is_None v then None else Some v.
Proof.
  intros Hnd Hkw. rewrite cleaned_literal_get.
  now rewrite (dict_get_rev _ _ Hnd), Hkw.
Qed.

(** C5, as the code has it: in the payload of [output] and in the payload
    [create] sends no key ever carries [None]; a named parameter left unset
    is no key of the payload and a named parameter with any other value,
    [False] and [0] included, is a key with that value, unless an extra
    keyword argument has the same key; extra keyword arguments are written
    last and decide their keys the same way. *)
Theorem payloads_omit_unset
    (default_tile_path overwrite skip_existing cog_output cog_parameters
     create_collection collection_id responses : json)
    (sentinelhub_request tiling_grid output_ bucket_name description : json)
    (kwargs : dict) :
  let output_payload :=
    output default_tile_path overwrite skip_existing cog_output cog_parameters
      create_collection collection_id responses kwargs in
  let create_payload_ :=
    create_payload sentinelhub_request tiling_grid output_ bucket_name
      description kwargs in
  (forall k, dict_get k output_payload <> Some JNull
             /\ dict_get k create_payload_ <> Some JNull)
  /\ (forall k v,
        In (k, v) [("defaultTilePath", default_tile_path);
                   ("overwrite", overwrite);
                   ("skipExisting", skip_existing);
                   ("cogOutput", cog_output);
                   ("cogParameters", cog_parameters);
                   ("createCollection", create_collection);
                   ("collectionId", collection_id);
                   ("responses", responses)] ->
        dict_get k kwargs = None ->
        dict_get k output_payload = if is_None v then None else Some v)
  /\ (forall k v,
        In (k, v) [("processRequest", sentinelhub_request);
                   ("tilingGrid", tiling_grid);
                   ("output", output_);
                   ("bucketName", bucket_name);
                   ("description", description)] ->
        dict_get k kwargs = None ->
        dict_get k create_payload_ = if is_None v then None else Some v)
  /\ (forall k v,
        NoDup (keys kwargs) -> dict_get k kwargs = Some v ->
        dict_get k output_payload = (if is_None v then None else Some v)
        /\ dict_get k create_payload_ = (if is_None v then None else Some v)).
Proof.
  cbv zeta. unfold output, create_payload.
  split; [|split; [|split]].
  - intros k. split; apply remove_undefined_no_None.
  - intros k v Hin Hkw. apply cleaned_literal_named; [|exact Hkw].
    simpl in Hin.
    repeat (destruct Hin as [Hin|Hin];
            [injection Hin as <- <-; reflexivity|]).
    contradiction.
  - intros k v Hin Hkw. apply cleaned_literal_named; [|exact Hkw].
    simpl in Hin.
    repeat (destruct Hin as [Hin|Hin];
            [injection Hin as <- <-; reflexivity|]).
    contradiction.
  - intros k v Hnd Hkw. split; now apply cleaned_literal_kwarg.
Qed.

End Payloads.

(** [output(overwrite=False, cog_output=0)] holds both keys with their
    values and none of the parameters left unset. *)
Lemma payloads_omit_unset_witness :
  let payload := output JNull (JBool false) JNull (JNum 0) JNull JNull JNull
                   JNull [] in
  dict_get "overwrite" payload = Some (JBool false)
  /\ dict_get "cogOutput" payload = Some (JNum 0)
  /\ dict_get "skipExisting" payload = None.
Proof.
  destruct (payloads_omit_unset JNull (JBool false) JNull (JNum 0) JNull JNull
              JNull JNull JNull JNull JNull JNull JNull [])
    as (_ & Hnamed & _).
  cbv zeta in Hnamed |- *.
  split; [|split].
  - apply (Hnamed "overwrite" (JBool false)); [simpl; tauto | reflexivity].
  - apply (Hnamed "cogOutput" (JNum 0)); [simpl; tauto | reflexivity].
  - apply (Hnamed "skipExisting" JNull); [simpl; tauto | reflexivity].
Defined.

(** C5, as the claim states it, fails: [skip_existing=False] passed together
    with an extra keyword argument [skipExisting] does not appear with its
    value; the payload holds what the extra argument says, or nothing. *)
Lemma output_named_parameter_overridden :
  dict_get "skipExisting"
    (output JNull JNull (JBool false) JNull JNull JNull JNull JNull
       [("skipExisting", JBool true)]) = Some (JBool true)
  /\ dict_get "skipExisting"
       (output JNull JNull (JBool false) JNull JNull JNull JNull JNull
          [("skipExisting", JNull)]) = None.
Proof. split; reflexivity. Qed.

(** ** Strings, traces and computations *)

Section Basics.

Lemma append_assoc (a b c : string) : (a ++ b) ++ c = a ++ b ++ c.
Proof. induction a as [|x a IH]; simpl; [reflexivity | now rewrite IH]. Qed.

Lemma length_append (a b : string) :
  String.length (a ++ b) = (String.length a + String.length b)%nat.
Proof. induction a as [|x a IH]; simpl; [reflexivity | now rewrite IH]. Qed.

(** A string is not the same string with something put behind it. *)
Lemma append_neq (a b : string) : b <> "" -> a <> a ++ b.
Proof.
  intros Hb E. apply (f_equal String.length) in E.
  rewrite length_append in E. destruct b; [congruence | simpl in E; lia].
Qed.

Lemma calls_of_app (t u : Trace) : calls_of (t ++ u)%list = (calls_of t ++ calls_of u)%list.
Proof.
  induction t as [|e t IH]; simpl; [reflexivity|].
  destruct e; simpl; now rewrite IH.
Qed.

Lemma calls_of_snoc (t : Trace) (r : Request) :
  calls_of (t ++ [Call r])%list = (calls_of t ++ [(verb r, url r)])%list.
Proof. now rewrite calls_of_app. Qed.

Lemma in_strs_spec (v : json) (l : list string) :
  in_strs v l = true <-> exists x, v = JStr x /\ In x l.
Proof.
  unfold in_strs. rewrite existsb_exists. split.
  - intros (x & Hin & Heq). destruct v; try discriminate.
    apply String.eqb_eq in Heq. subst. eauto.
  - intros (x & -> & Hin). exists x. split; [exact Hin|].
    simpl. apply String.eqb_refl.
Qed.

Context {S : Type}.

Lemma bind_Return {A B : Type} (m : M S A) (k : A -> M S B) s b s' :
  bind m k s = (Return b, s') ->
  exists a s1, m s = (Return a, s1) /\ k a s1 = (Return b, s').
Proof.
  unfold bind. destruct (m s) as [[a|e|] s1]; intros H; try discriminate.
  eauto.
Qed.

Lemma bind_step {A B : Type} (m : M S A) (k : A -> M S B) s a s1 :
  m s = (Return a, s1) -> bind m k s = k a s1.
Proof. unfold bind. now intros ->. Qed.

Lemma bind_raise {A B : Type} (m : M S A) (k : A -> M S B) s e s1 :
  m s = (Raise e, s1) -> bind m k s = (Raise e, s1).
Proof. unfold bind. now intros ->. Qed.

Lemma getitem_Return (v : json) (k : string) (s : S) x s' :
  getitem v k s = (Return x, s') ->
  s' = s /\ exists d, v = JObj d /\ dict_get k d = Some x.
Proof.
  unfold getitem. destruct v; try discriminate.
  destruct (dict_get k d) eqn:E; intros H; inversion H; subst. eauto.
Qed.

Lemma getitem_state (v : json) (k : string) (s : S) : snd (getitem v k s) = s.
Proof.
  unfold getitem. destruct v; try reflexivity. now destruct (dict_get k d).
Qed.

End Basics.

(** ** The cached description *)

Section Cache.

Variable env : Env.

Abbreviation info_request := (info_request env).

Lemma update_info_run (s : State) :
  update_info env s =
  match service env (trace s) (info_request (self s)) with
  | inr j => (Return tt,
              mkState (with_request_info (self s) j)
                (trace s ++ [Call (info_request (self s))])%list)
  | inl msg => (Raise (DownloadFailedException msg),
                mkState (self s) (trace s ++ [Call (info_request (self s))])%list)
  end.
Proof.
  unfold update_info, bind, get_self, liftIO, get_json, set_request_info,
    info_request.
  now destruct (service env (trace s) _).
Qed.

Lemma info_run (s : State) :
  info env s =
  if is_None (_request_info (self s)) then
    match service env (trace s) (info_request (self s)) with
    | inr j => (Return j,
                mkState (with_request_info (self s) j)
                  (trace s ++ [Call (info_request (self s))])%list)
    | inl msg => (Raise (DownloadFailedException msg),
                  mkState (self s)
                    (trace s ++ [Call (info_request (self s))])%list)
    end
  else (Return (_request_info (self s)), s).
Proof.
  unfold info. unfold bind at 1. unfold get_self at 1.
  destruct (is_None (_request_info (self s))) eqn:E.
  - unfold bind. rewrite update_info_run.
    now destruct (service env (trace s) _).
  - reflexivity.
Qed.

(** A description that is held is returned as it is, without a call. *)
Lemma info_cached (s : State) :
  is_None (_request_info (self s)) = false ->
  info env s = (Return (_request_info (self s)), s).
Proof. intros H. now rewrite info_run, H. Qed.

(** What [info] returns is what the handle holds afterwards. *)
Lemma info_Return (s s1 : State) (i : json) :
  info env s = (Return i, s1) -> _request_info (self s1) = i.
Proof.
  rewrite info_run. destruct (is_None (_request_info (self s))).
  - destruct (service env (trace s) _); intros H; inversion H; reflexivity.
  - intros H; inversion H; subst; reflexivity.
Qed.

Abbreviation str := (Py.str (container_str env)).

(** With the description [d] held, [raise_for_status] makes no call: it
    looks the status up in the given list. *)
Lemma raise_for_status_run (status : status_arg) (s : State)
                           (d : dict) (batch_status : json) :
  _request_info (self s) = JObj d ->
  dict_get "status" d = Some batch_status ->
  raise_for_status env status s =
  if in_strs batch_status
       (match status with AStatus x => [x] | AStatuses l => l end)
  then (Raise (RuntimeError
                 (status_error_message env (request_id (self s)) batch_status
                    (match dict_get "error" d with
                     | Some e => e
                     | None => JStr ""
                     end))), s)
  else (Return tt, s).
Proof.
  intros Hcache Hstatus. unfold raise_for_status.
  assert (Hinfo : info env s = (Return (JObj d), s)).
  { rewrite info_cached; rewrite Hcache; reflexivity. }
  rewrite (bind_step _ _ _ _ _ Hinfo).
  unfold getitem at 1. rewrite Hstatus. unfold bind at 1, ret at 1.
  destruct (in_strs batch_status _); [|reflexivity].
  rewrite (bind_step _ _ _ _ _ Hinfo).
  unfold get_default, bind, ret, get_self, raise.
  now destruct (dict_get "error" d).
Qed.

(** C6: with the description [d] held by the handle, [raise_for_status]
    raises exactly when the status of [d] is one of the given statuses, a
    single string standing for the list of that string.  The error is a
    [RuntimeError] whose text carries the identifier of the job, the status
    and, when the description has a non-empty [error], that error; the
    handle and the trace stay as they are. *)
Theorem raise_for_status_iff_member (status : status_arg) (s : State)
                                    (d : dict) (batch_status : json) :
  _request_info (self s) = JObj d ->
  dict_get "status" d = Some batch_status ->
  let statuses := match status with AStatus x => [x] | AStatuses l => l end in
  let error_message :=
    match dict_get "error" d with Some e => e | None => JStr "" end in
  (forall x, batch_status = JStr x -> In x statuses ->
     raise_for_status env status s =
     (Raise (RuntimeError
               ("Raised for batch request " ++ str (request_id (self s))
                ++ " with status " ++ x
                ++ (if truthy error_message
                    then " and error message: " ++ quote
                           ++ str error_message ++ quote
                    else ""))), s))
  /\ ((forall x, batch_status = JStr x -> ~ In x statuses) ->
      raise_for_status env status s = (Return tt, s))
  /\ ((exists e s', raise_for_status env status s = (Raise e, s')) <->
      (exists x, batch_status = JStr x /\ In x statuses)).
Proof.
  intros Hcache Hstatus statuses error_message.
  pose proof (raise_for_status_run status s d batch_status Hcache Hstatus)
    as Hrun.
  fold statuses error_message in Hrun.
  split; [|split].
  - intros x -> Hin. rewrite Hrun.
    replace (in_strs (JStr x) statuses) with true
      by (symmetry; apply in_strs_spec; eauto).
    reflexivity.
  - intros Hout. rewrite Hrun.
    destruct (in_strs batch_status statuses) eqn:E; [|reflexivity].
    apply in_strs_spec in E. destruct E as (x & -> & Hin).
    exfalso. exact (Hout x eq_refl Hin).
  - rewrite Hrun, <- in_strs_spec.
    destruct (in_strs batch_status statuses).
    + split; [reflexivity | eauto].
    + split; [intros (e & s' & H); discriminate | discriminate].
Qed.

End Cache.

(** A handle that holds the description of the failed job raises for
    [FAILED], and for a list with [FAILED] in it. *)
Lemma raise_for_status_iff_member_witness :
  let s := mkState (with_request_info Scenario.job1 Scenario.failed_job) [] in
  raise_for_status Scenario.failed_analysis (AStatuses ["FAILED"; "CANCELED"]) s =
  (Raise (RuntimeError
            ("Raised for batch request job1 with status FAILED"
             ++ " and error message: " ++ quote ++ "Out of processing units"
             ++ quote)), s).
Proof.
  cbv zeta.
  destruct (raise_for_status_iff_member Scenario.failed_analysis
              (AStatuses ["FAILED"; "CANCELED"])
              (mkState (with_request_info Scenario.job1 Scenario.failed_job) [])
              [("id", JStr "job1"); ("status", JStr "FAILED");
               ("error", JStr "Out of processing units")]
              (JStr "FAILED") eq_refl eq_refl) as (Hraise & _).
  exact (Hraise "FAILED" eq_refl (or_introl eq_refl)).
Defined.

(** ** What the methods do to the handle *)

Section Quiet.

Context {S : Type}.

(** A computation that leaves the state as it finds it. *)
Definition quiet {A : Type} (m : M S A) : Prop := forall s, after m s = s.

Lemma quiet_ret {A : Type} (a : A) : quiet (ret a).
Proof. now intros s. Qed.

Lemma quiet_raise {A : Type} (e : exn) : quiet (@raise S A e).
Proof. now intros s. Qed.

Lemma quiet_lift_result {A : Type} (r : result A) : quiet (lift_result r).
Proof. destruct r; [apply quiet_raise | apply quiet_ret]. Qed.

Lemma quiet_getitem (v : json) (k : string) : quiet (getitem v k).
Proof. intros s. apply getitem_state. Qed.

Lemma quiet_get_default (v : json) (k : string) (default : json) :
  quiet (get_default v k default).
Proof.
  intros s. unfold after, get_default.
  destruct v; try reflexivity. now destruct (dict_get k d).
Qed.

Lemma after_bind {A B : Type} (m : M S A) (k : A -> M S B) :
  (forall a, quiet (k a)) -> forall s, after (bind m k) s = after m s.
Proof.
  intros Hk s. unfold after, bind.
  destruct (m s) as [[a|e|] s1]; simpl; try reflexivity. apply Hk.
Qed.

Lemma quiet_bind {A B : Type} (m : M S A) (k : A -> M S B) :
  quiet m -> (forall a, quiet (k a)) -> quiet (bind m k).
Proof. intros Hm Hk s. now rewrite after_bind. Qed.

End Quiet.

Create HintDb quiet.

#[local] Hint Resolve quiet_ret quiet_raise quiet_lift_result quiet_getitem
  quiet_get_default : quiet.

Ltac solve_quiet :=
  repeat first
    [ apply quiet_bind; [|intros ?]
    | solve [auto with quiet]
    | match goal with
      | |- quiet (match ?x with _ => _ end) => destruct x
      | |- quiet (if ?b then _ else _) => destruct b
      | |- quiet (let '(_, _) := ?p in _) => destruct p
      end ].

Section Methods.

Variable env : Env.

Abbreviation info_request := (info_request env).

(** A method that makes one call and leaves the handle alone. *)
Lemma one_call_run (r : Request) (s : State) :
  liftIO (get_json env r) s =
  match service env (trace s) r with
  | inr j => (Return j, mkState (self s) (trace s ++ [Call r])%list)
  | inl msg => (Raise (DownloadFailedException msg),
                mkState (self s) (trace s ++ [Call r])%list)
  end.
Proof. unfold liftIO, get_json. now destruct (service env (trace s) r). Qed.

Lemma one_call_after (r : Request) (s : State) :
  after (liftIO (get_json env r)) s = mkState (self s) (trace s ++ [Call r])%list.
Proof.
  unfold after. rewrite one_call_run. now destruct (service env (trace s) r).
Qed.

Lemma _call_job_after (endpoint_name : string) (s : State) :
  after (_call_job env endpoint_name) s =
  mkState (self s)
    (trace s ++ [Call (mkRequest
                         (_get_process_url env (Some (config (self s)))
                            (request_id (self s)) ++ "/" ++ endpoint_name)
                         JNull (Some POST) JNull)])%list.
Proof. unfold _call_job. apply one_call_after. Qed.

Lemma delete_after (s : State) :
  after (delete env) s =
  mkState (self s)
    (trace s ++ [Call (mkRequest
                         (_get_process_url env (Some (config (self s)))
                            (request_id (self s)))
                         JNull (Some DELETE) JNull)])%list.
Proof. unfold delete. apply one_call_after. Qed.

Lemma get_tile_after (tile_id : json) (s : State) :
  after (get_tile env tile_id) s =
  mkState (self s)
    (trace s ++ [Call (mkRequest (_get_tiles_url env (self s) tile_id)
                         JNull None JNull)])%list.
Proof. unfold get_tile. apply one_call_after. Qed.

Lemma reprocess_tile_after (tile_id : json) (s : State) :
  after (reprocess_tile env tile_id) s =
  mkState (self s)
    (trace s ++ [Call (mkRequest
                         (_get_process_url env (Some (config (self s)))
                            (request_id (self s))
                          ++ "/" ++ "tiles/" ++ Py.str (container_str env) tile_id
                          ++ "/restart")
                         JNull (Some POST) JNull)])%list.
Proof.
  unfold reprocess_tile. rewrite after_bind by (intros; apply quiet_ret).
  apply _call_job_after.
Qed.

Lemma evalscript_after (s : State) : after (evalscript env) s = after (info env) s.
Proof. unfold evalscript. apply after_bind. intros i. solve_quiet. Qed.

Lemma _parse_bounds_payload_after (s : State) :
  after (_parse_bounds_payload env) s = after (info env) s.
Proof. unfold _parse_bounds_payload. apply after_bind. intros i. solve_quiet. Qed.

Lemma bbox_after (s : State) : after (bbox env) s = after (info env) s.
Proof.
  unfold bbox. rewrite after_bind; [apply _parse_bounds_payload_after|].
  intros [[b g] c]. solve_quiet.
Qed.

Lemma geometry_after (s : State) : after (geometry env) s = after (info env) s.
Proof.
  unfold geometry. rewrite after_bind; [apply _parse_bounds_payload_after|].
  intros [[b g] c]. solve_quiet.
Qed.

Lemma raise_for_status_after (status : status_arg) (s : State) :
  after (raise_for_status env status) s = after (info env) s.
Proof.
  unfold raise_for_status, after. unfold bind at 1.
  destruct (info env s) as [[i|e|] s1] eqn:Hinfo; try reflexivity.
  apply info_Return in Hinfo. simpl.
  unfold bind at 1. destruct (getitem i "status" s1) as [[x|e|] s2] eqn:Hget;
    try (pose proof (getitem_state i "status" s1) as Hs; rewrite Hget in Hs;
         exact Hs).
  apply getitem_Return in Hget. destruct Hget as (-> & d & -> & Hd).
  destruct (in_strs x _); [|reflexivity].
  rewrite (bind_step _ _ _ _ _
             (info_cached env s1 ltac:(rewrite Hinfo; reflexivity))).
  rewrite Hinfo. unfold get_default, bind, ret, get_self, raise.
  now destruct (dict_get "error" d).
Qed.

(** What an access to [info] leaves: the handle as it was, or the handle
    with the answer of the service to the one call made. *)
Lemma info_after (s : State) :
  after (info env) s = s
  \/ (_request_info (self s) = JNull
      /\ trace (after (info env) s) =
           (trace s ++ [Call (info_request (self s))])%list
      /\ match service env (trace s) (info_request (self s)) with
         | inr j => self (after (info env) s) = with_request_info (self s) j
         | inl _ => self (after (info env) s) = self s
         end).
Proof.
  unfold after. rewrite info_run.
  destruct (_request_info (self s)) eqn:E; simpl; try (now left).
  right. now destruct (service env (trace s) (info_request (self s))).
Qed.

(** C4: whatever method is called, the handle keeps its identifier and its
    configuration, and its cached description is afterwards either the one
    it was or, whole, the answer of the service to the call the method made.
    The actions, [delete] and the tile methods keep it; [update_info],
    [update] and the first access to [info] replace it by the answer, and
    keep it when the call fails. *)
Theorem cache_kept_or_replaced (c : method_call) (s : State) :
  let s' := invoke env c s in
  request_id (self s') = request_id (self s)
  /\ config (self s') = config (self s)
  /\ (_request_info (self s') = _request_info (self s)
      \/ exists r, trace s' = (trace s ++ [Call r])%list
                   /\ service env (trace s) r = inr (_request_info (self s')))
  /\ match c with
     | m_delete | m_start_analysis | m_start_job | m_cancel_job
     | m_restart_job | m_get_tile _ | m_reprocess_tile _ =>
         _request_info (self s') = _request_info (self s)
     | m_update _ _ _ | m_update_info =>
         exists r,
           url r = _get_process_url env (Some (config (self s)))
                     (request_id (self s))
           /\ verb r = (match c with m_update_info => GET | _ => PUT end)
           /\ trace s' = (trace s ++ [Call r])%list
           /\ match service env (trace s) r with
              | inr j => _request_info (self s') = j
              | inl _ => _request_info (self s') = _request_info (self s)
              end
     | m_info | m_evalscript | m_bbox | m_geometry | m_raise_for_status _ =>
         (is_None (_request_info (self s)) = false -> s' = s)
         /\ (is_None (_request_info (self s)) = true ->
             trace s' = (trace s ++ [Call (info_request (self s))])%list
             /\ match service env (trace s) (info_request (self s)) with
                | inr j => _request_info (self s') = j
                | inl _ => _request_info (self s') = _request_info (self s)
                end)
     end.
Proof.
  assert (Hread : forall s1, s1 = after (info env) s ->
            request_id (self s1) = request_id (self s)
            /\ config (self s1) = config (self s)
            /\ (_request_info (self s1) = _request_info (self s)
                \/ exists r, trace s1 = (trace s ++ [Call r])%list
                     /\ service env (trace s) r = inr (_request_info (self s1)))
            /\ (is_None (_request_info (self s)) = false -> s1 = s)
            /\ (is_None (_request_info (self s)) = true ->
                trace s1 = (trace s ++ [Call (info_request (self s))])%list
                /\ match service env (trace s) (info_request (self s)) with
                   | inr j => _request_info (self s1) = j
                   | inl _ => _request_info (self s1) = _request_info (self s)
                   end)).
  { intros s1 ->. unfold after. rewrite info_run.
    destruct (is_None (_request_info (self s))) eqn:E;
      [destruct (service env (trace s) (info_request (self s))) eqn:Hs|];
      simpl;
      repeat match goal with |- _ /\ _ => split end;
      try reflexivity; try discriminate;
      try (intros _; split; reflexivity);
      try (now left);
      right; eexists; split; [reflexivity | eassumption]. }
  destruct c; cbv zeta; unfold invoke;
    rewrite ?evalscript_after, ?bbox_after, ?geometry_after,
      ?raise_for_status_after, ?delete_after, ?get_tile_after,
      ?reprocess_tile_after;
    unfold start_analysis, start_job, cancel_job, restart_job;
    rewrite ?_call_job_after;
    try (apply Hread; reflexivity);
    try (simpl; repeat split; auto; fail).
  - (* update_info *)
    unfold after. rewrite update_info_run.
    destruct (service env (trace s) (info_request (self s))) eqn:Hs; simpl.
    + repeat split; auto.
      exists (info_request (self s)). repeat split. now rewrite Hs.
    + repeat split; eauto.
      exists (info_request (self s)). repeat split. now rewrite Hs.
  - (* update *)
    unfold after, update, bind, get_self. rewrite one_call_run.
    match goal with
    | |- context [service env (trace s) ?r] =>
        destruct (service env (trace s) r) eqn:Hs; simpl;
        (repeat split; eauto; exists r; repeat split; now rewrite Hs)
    end.
Qed.

End Methods.

(** [update] on the handle of job1: the description the service answers is
    the one held afterwards; [start_job] leaves the handle without one. *)
Lemma cache_kept_or_replaced_witness :
  let s := mkState Scenario.job1 [] in
  _request_info
    (self (invoke Scenario.three_tiles
             (m_update JNull (JStr "a new description") []) s)) =
    Scenario.job "CREATED" 3
  /\ _request_info (self (invoke Scenario.three_tiles m_start_job s)) = JNull.
Proof.
  cbv zeta. split.
  - destruct (cache_kept_or_replaced Scenario.three_tiles
                (m_update JNull (JStr "a new description") [])
                (mkState Scenario.job1 [])) as (_ & _ & _ & r & Hu & _ & Ht & Hj).
    cbv zeta in Ht. injection Ht as <-. exact Hj.
  - destruct (cache_kept_or_replaced Scenario.three_tiles m_start_job
                (mkState Scenario.job1 [])) as (_ & _ & _ & Hk).
    exact Hk.
Defined.

(** ** URLs and verbs *)

Section Urls.

Variable env : Env.

Abbreviation str := (Py.str (container_str env)).

Lemma get_json_after (r : Request) (t : Trace) :
  after (get_json env r) t = (t ++ [Call r])%list.
Proof. unfold after, get_json. now destruct (service env t r). Qed.

Lemma _to_dict_is_dict (c : collection_arg) (payload : json) :
  _to_dict env c = inr payload -> is_None payload = false.
Proof.
  destruct c as [id d|id text|v]; simpl; try discriminate.
  - intros H. now inversion H.
  - destruct v; try discriminate. intros H. now inversion H.
Qed.

Lemma _get_process_url_id (config : option SHConfig) (id : json) :
  truthy id = true ->
  _get_process_url env config id =
  sh_base_url (config_or_default env config) ++ "/api/v1/batch/process/"
    ++ str id.
Proof.
  intros H. unfold _get_process_url, _get_batch_url. rewrite H.
  now rewrite !append_assoc.
Qed.

Lemma _get_process_url_jobs (config : option SHConfig) (id : json) :
  truthy id = false ->
  _get_process_url env config id =
  sh_base_url (config_or_default env config) ++ "/api/v1/batch/process".
Proof.
  intros H. unfold _get_process_url, _get_batch_url. rewrite H.
  now rewrite !append_assoc.
Qed.

Lemma _get_tiles_url_tile (h : instance) (tile_id : json) :
  truthy tile_id = true ->
  _get_tiles_url env h tile_id =
  _get_process_url env (Some (config h)) (request_id h) ++ "/tiles/"
    ++ str tile_id.
Proof.
  intros H. unfold _get_tiles_url. rewrite H. now rewrite !append_assoc.
Qed.

Lemma _get_tiles_url_all (h : instance) (tile_id : json) :
  truthy tile_id = false ->
  _get_tiles_url env h tile_id =
  _get_process_url env (Some (config h)) (request_id h) ++ "/tiles".
Proof. intros H. unfold _get_tiles_url. now rewrite H. Qed.

(** The calls of a method that makes one call. *)
Lemma one_call_calls (r : Request) (s : State) :
  calls_of (trace (after (liftIO (get_json env r)) s)) =
  (calls_of (trace s) ++ [(verb r, url r)])%list.
Proof. rewrite one_call_after. apply calls_of_snoc. Qed.

(** C10, as the code has it: [get_tile] goes through [_get_tiles_url], so it
    reads [.../tiles/{tileId}] for a tile identifier that is true and the
    whole list [.../tiles] for one that is not, [0] among them;
    [reprocess_tile] does not: for every tile identifier, [0] included, it
    posts to [.../tiles/{tileId}/restart].  The job part of the URL is
    [/process/{id}] for the identifier the handle has. *)
Theorem tile_urls (tile_id : json) (s : State) :
  let job := _get_process_url env (Some (config (self s)))
               (request_id (self s)) in
  (truthy (request_id (self s)) = true ->
   job = sh_base_url (config (self s)) ++ "/api/v1/batch/process/"
           ++ str (request_id (self s)))
  /\ (truthy tile_id = true ->
      calls_of (trace (after (get_tile env tile_id) s)) =
      (calls_of (trace s) ++ [(GET, (job ++ "/tiles/" ++ str tile_id)%string)])%list)
  /\ (truthy tile_id = false ->
      calls_of (trace (after (get_tile env tile_id) s)) =
      (calls_of (trace s) ++ [(GET, (job ++ "/tiles")%string)])%list)
  /\ calls_of (trace (after (get_tile env (JNum 0)) s)) =
     (calls_of (trace s) ++ [(GET, (job ++ "/tiles")%string)])%list
  /\ calls_of (trace (after (reprocess_tile env tile_id) s)) =
     (calls_of (trace s)
      ++ [(POST, (job ++ "/tiles/" ++ str tile_id ++ "/restart")%string)])%list.
Proof.
  cbv zeta. split; [|split; [|split; [|split]]].
  - intros H. now rewrite _get_process_url_id.
  - intros H. rewrite get_tile_after. cbn [trace]. rewrite calls_of_snoc.
    cbn [verb url request_type post_values is_None].
    now rewrite _get_tiles_url_tile.
  - intros H. rewrite get_tile_after. cbn [trace]. rewrite calls_of_snoc.
    cbn [verb url request_type post_values is_None].
    now rewrite _get_tiles_url_all.
  - rewrite get_tile_after. cbn [trace]. rewrite calls_of_snoc.
    cbn [verb url request_type post_values is_None].
    now rewrite _get_tiles_url_all.
  - rewrite reprocess_tile_after. cbn [trace]. rewrite calls_of_snoc.
    reflexivity.
Qed.

End Urls.

(** Tile 7 and tile 0 of job1. *)
Lemma tile_urls_witness :
  let s := mkState Scenario.job1 [] in
  calls_of (trace (after (get_tile Scenario.no_tiles (JNum 7)) s)) =
    [(GET, Scenario.tiles_url ++ "/7")]
  /\ calls_of (trace (after (get_tile Scenario.no_tiles (JNum 0)) s)) =
       [(GET, Scenario.tiles_url)].
Proof.
  cbv zeta.
  destruct (tile_urls Scenario.no_tiles (JNum 7) (mkState Scenario.job1 []))
    as (_ & Htile & _ & Hzero & _).
  split; [exact (Htile eq_refl) | exact Hzero].
Defined.

(** C10, as the claim states it, fails for [reprocess_tile]: its call for
    tile 7 is not a call of [.../tiles/7] and its call for tile 0 is not a
    call of [.../tiles]; both are calls of the restart action of the tile. *)
Lemma reprocess_tile_posts_restart :
  let s := mkState Scenario.job1 [] in
  calls_of (trace (after (reprocess_tile Scenario.no_tiles (JNum 7)) s)) =
    [(POST, Scenario.tiles_url ++ "/7/restart")]
  /\ calls_of (trace (after (reprocess_tile Scenario.no_tiles (JNum 0)) s)) =
       [(POST, Scenario.tiles_url ++ "/0/restart")].
Proof. split; reflexivity. Qed.

Section Hierarchy.

Variable env : Env.

Abbreviation str := (Py.str (container_str env)).

(** The calls of static code that makes one call and then computes. *)
Lemma get_json_then_calls {A : Type} (r : Request) (k : json -> IO A) t :
  (forall j, quiet (k j)) ->
  calls_of (after (bind (get_json env r) k) t) =
  (calls_of t ++ [(verb r, url r)])%list.
Proof.
  intros Hk. rewrite after_bind by exact Hk.
  rewrite get_json_after. apply calls_of_snoc.
Qed.

Lemma get_json_calls (r : Request) t :
  calls_of (after (get_json env r) t) = (calls_of t ++ [(verb r, url r)])%list.
Proof. rewrite get_json_after. apply calls_of_snoc. Qed.

(** The page an iterator asks for when it has nothing buffered. *)
Lemma __next___calls (it : SentinelHubFeatureIterator) t :
  features it = [] -> finished it = false ->
  calls_of (after (__next__ env it) t) = (calls_of t ++ [(GET, it_url it)])%list.
Proof.
  intros Hf Hfin. unfold __next__. rewrite Hf, Hfin.
  apply get_json_then_calls. intros page.
  destruct (feed_items env page) as [[|x rest]|]; [| |destruct (started it)];
    auto with quiet.
Qed.

(** The call of each method, in terms of the URL builders. *)
Lemma methods_call_built_urls (config : option SHConfig) (s : State) (t : Trace) :
  let batch := sh_base_url (config_or_default env config) ++ "/api/v1/batch" in
  let job := _get_process_url env (Some (SentinelHubBatch.config (self s)))
               (request_id (self s)) in
  (* the hierarchy *)
  (_get_batch_url env config = batch
   /\ _get_process_url env config JNull = batch ++ "/process"
   /\ (forall id, truthy id = true ->
         _get_process_url env config id = batch ++ "/process/" ++ str id)
   /\ _get_tiles_url env (self s) JNull = job ++ "/tiles"
   /\ (forall tile_id, truthy tile_id = true ->
         _get_tiles_url env (self s) tile_id = job ++ "/tiles/" ++ str tile_id)
   /\ _get_tiling_grids_url env config = batch ++ "/tilinggrids"
   /\ _get_collections_url env config = batch ++ "/collections")
  (* jobs *)
  /\ (forall d tiling_grid output bucket_name description kwargs,
        calls_of (after (create env (ARequestValue (JObj d)) tiling_grid output
                           bucket_name description config kwargs) t) =
        (calls_of t ++ [(POST, (batch ++ "/process")%string)])%list)
  /\ (forall user_id search sort kwargs,
        it_url (feature_iterator
                  (iter_requests env user_id search sort config kwargs)) =
        batch ++ "/process")
  /\ calls_of (trace (after (update_info env) s)) =
     (calls_of (trace s) ++ [(GET, job)])%list
  /\ (forall output description kwargs,
        calls_of (trace (after (update env output description kwargs) s)) =
        (calls_of (trace s) ++ [(PUT, job)])%list)
  /\ calls_of (trace (after (delete env) s)) =
     (calls_of (trace s) ++ [(DELETE, job)])%list
  (* actions *)
  /\ (forall endpoint_name,
        calls_of (trace (after (_call_job env endpoint_name) s)) =
        (calls_of (trace s) ++ [(POST, (job ++ "/" ++ endpoint_name)%string)])%list)
  /\ (start_analysis env = _call_job env "analyse"
      /\ start_job env = _call_job env "start"
      /\ cancel_job env = _call_job env "cancel"
      /\ restart_job env = _call_job env "restartpartial")
  /\ (forall tile_id,
        calls_of (trace (after (reprocess_tile env tile_id) s)) =
        (calls_of (trace s)
         ++ [(POST, (job ++ "/tiles/" ++ str tile_id ++ "/restart")%string)])%list)
  (* tiles *)
  /\ (forall tile_id,
        calls_of (trace (after (get_tile env tile_id) s)) =
        (calls_of (trace s) ++ [(GET, _get_tiles_url env (self s) tile_id)])%list)
  /\ (forall status kwargs,
        it_url (iter_tiles env (self s) status kwargs) = job ++ "/tiles")
  (* tiling grids *)
  /\ (forall kwargs,
        it_url (iter_tiling_grids env config kwargs) = batch ++ "/tilinggrids")
  /\ (forall grid_id,
        calls_of (after (get_tiling_grid env grid_id config) t) =
        (calls_of t ++ [(GET, (batch ++ "/tilinggrids/" ++ str grid_id)%string)])%list)
  (* collections *)
  /\ (forall search kwargs,
        it_url (iter_collections env search config kwargs) =
        batch ++ "/collections")
  /\ (forall collection_id,
        calls_of (after (get_collection env collection_id config) t) =
        (calls_of t
         ++ [(GET, (batch ++ "/collections/" ++ str collection_id)%string)])%list)
  /\ (forall collection payload,
        _to_dict env collection = inr payload ->
        calls_of (after (create_collection env collection config) t) =
        (calls_of t ++ [(POST, (batch ++ "/collections")%string)])%list)
  /\ (forall collection collection_id payload,
        _parse_collection_id env collection = inr collection_id ->
        _to_dict env collection = inr payload ->
        calls_of (after (update_collection env collection config) t) =
        (calls_of t
         ++ [(PUT, (batch ++ "/collections/" ++ str collection_id)%string)])%list)
  /\ (forall collection collection_id,
        _parse_collection_id env collection = inr collection_id ->
        calls_of (after (delete_collection env collection config) t) =
        (calls_of t
         ++ [(DELETE, (batch ++ "/collections/" ++ str collection_id)%string)])%list)
  (* pages of the iterators *)
  /\ (forall it,
        features it = [] -> finished it = false ->
        calls_of (after (__next__ env it) t) =
        (calls_of t ++ [(GET, it_url it)])%list).
Proof.
  cbv zeta.
  repeat match goal with |- _ /\ _ => split end; intros;
    try reflexivity;
    try (rewrite ?_get_process_url_id, ?_get_tiles_url_tile by assumption;
         now rewrite ?append_assoc);
    try (rewrite ?delete_after, ?_call_job_after, ?reprocess_tile_after,
           ?get_tile_after; cbn [trace]; rewrite calls_of_snoc; reflexivity);
    try (now apply __next___calls).
  - (* create *)
    unfold create. unfold bind at 1, ret at 1.
    now rewrite get_json_then_calls by auto with quiet.
  - (* update_info *)
    unfold after. rewrite update_info_run.
    destruct (service env (trace s) _); cbn [snd trace];
      now rewrite calls_of_snoc.
  - (* update *)
    unfold after, update, bind, get_self. rewrite one_call_run.
    destruct (service env (trace s) _); cbn [snd trace set_request_info];
      now rewrite calls_of_snoc.
  - (* get_tiling_grid *)
    unfold get_tiling_grid. rewrite get_json_calls.
    cbn [verb url request_type post_values is_None]. unfold _get_tiling_grids_url, _get_batch_url.
    now rewrite !append_assoc.
  - (* get_collection *)
    unfold get_collection. rewrite get_json_then_calls by auto with quiet.
    cbn [verb url request_type post_values is_None]. unfold _get_collections_url, _get_batch_url.
    now rewrite !append_assoc.
  - (* create_collection *)
    unfold create_collection. rewrite H. unfold lift_result, bind at 1, ret at 1.
    rewrite get_json_then_calls by auto with quiet.
    unfold verb. cbn [url request_type post_values].
    now rewrite (_to_dict_is_dict env _ _ H).
  - (* update_collection *)
    unfold update_collection. rewrite H, H0.
    unfold lift_result, bind, ret. rewrite get_json_calls.
    cbn [verb url request_type post_values is_None]. unfold _get_collections_url, _get_batch_url.
    now rewrite !append_assoc.
  - (* delete_collection *)
    unfold delete_collection. rewrite H.
    unfold lift_result, bind, ret. rewrite get_json_calls.
    cbn [verb url request_type post_values is_None]. unfold _get_collections_url, _get_batch_url.
    now rewrite !append_assoc.
Qed.


(** C8, as the code has it: the URLs are built level by level from the base
    URL of the configuration given, or of the default one when none is
    given, which is also that of a new handle, and from that of the handle
    for its methods.  An identifier that is true adds its segment; one that
    is not ([0], the empty string) adds none, so that the job of such a
    handle is addressed as [/process] and its actions as
    [/process/{action}].  Each method calls its URL with its verb. *)
Theorem urls_and_verbs (config : option SHConfig) (s : State) (t : Trace) :
  let base := match config with
              | Some c => sh_base_url c
              | None => sh_base_url (SHConfig_default env)
              end in
  let batch := base ++ "/api/v1/batch" in
  let process := sh_base_url (SentinelHubBatch.config (self s))
                   ++ "/api/v1/batch/process" in
  let job := if truthy (request_id (self s))
             then process ++ "/" ++ str (request_id (self s))
             else process in
  (* the hierarchy *)
  (_get_batch_url env config = batch
   /\ (forall id,
         _get_process_url env config id =
         if truthy id then batch ++ "/process/" ++ str id
         else batch ++ "/process")
   /\ (forall tile_id,
         _get_tiles_url env (self s) tile_id =
         if truthy tile_id then job ++ "/tiles/" ++ str tile_id
         else job ++ "/tiles")
   /\ _get_tiling_grids_url env config = batch ++ "/tilinggrids"
   /\ _get_collections_url env config = batch ++ "/collections")
  (* jobs *)
  /\ (forall d tiling_grid output bucket_name description kwargs,
        calls_of (after (create env (ARequestValue (JObj d)) tiling_grid output
                           bucket_name description config kwargs) t) =
        (calls_of t ++ [(POST, (batch ++ "/process")%string)])%list)
  /\ (forall user_id search sort kwargs,
        it_url (feature_iterator
                  (iter_requests env user_id search sort config kwargs)) =
        batch ++ "/process")
  /\ calls_of (trace (after (update_info env) s)) =
     (calls_of (trace s) ++ [(GET, job)])%list
  /\ (forall output description kwargs,
        calls_of (trace (after (update env output description kwargs) s)) =
        (calls_of (trace s) ++ [(PUT, job)])%list)
  /\ calls_of (trace (after (delete env) s)) =
     (calls_of (trace s) ++ [(DELETE, job)])%list
  (* actions *)
  /\ (forall endpoint_name,
        calls_of (trace (after (_call_job env endpoint_name) s)) =
        (calls_of (trace s) ++ [(POST, (job ++ "/" ++ endpoint_name)%string)])%list)
  /\ (start_analysis env = _call_job env "analyse"
      /\ start_job env = _call_job env "start"
      /\ cancel_job env = _call_job env "cancel"
      /\ restart_job env = _call_job env "restartpartial")
  /\ (forall tile_id,
        calls_of (trace (after (reprocess_tile env tile_id) s)) =
        (calls_of (trace s)
         ++ [(POST, (job ++ "/tiles/" ++ str tile_id ++ "/restart")%string)])%list)
  (* tiles *)
  /\ (forall tile_id,
        calls_of (trace (after (get_tile env tile_id) s)) =
        (calls_of (trace s)
         ++ [(GET, if truthy tile_id
                   then (job ++ "/tiles/" ++ str tile_id)%string
                   else (job ++ "/tiles")%string)])%list)
  /\ (forall status kwargs,
        it_url (iter_tiles env (self s) status kwargs) = job ++ "/tiles")
  (* tiling grids *)
  /\ (forall kwargs,
        it_url (iter_tiling_grids env config kwargs) = batch ++ "/tilinggrids")
  /\ (forall grid_id,
        calls_of (after (get_tiling_grid env grid_id config) t) =
        (calls_of t ++ [(GET, (batch ++ "/tilinggrids/" ++ str grid_id)%string)])%list)
  (* collections *)
  /\ (forall search kwargs,
        it_url (iter_collections env search config kwargs) =
        batch ++ "/collections")
  /\ (forall collection_id,
        calls_of (after (get_collection env collection_id config) t) =
        (calls_of t
         ++ [(GET, (batch ++ "/collections/" ++ str collection_id)%string)])%list)
  /\ (forall collection payload,
        _to_dict env collection = inr payload ->
        calls_of (after (create_collection env collection config) t) =
        (calls_of t ++ [(POST, (batch ++ "/collections")%string)])%list)
  /\ (forall collection collection_id payload,
        _parse_collection_id env collection = inr collection_id ->
        _to_dict env collection = inr payload ->
        calls_of (after (update_collection env collection config) t) =
        (calls_of t
         ++ [(PUT, (batch ++ "/collections/" ++ str collection_id)%string)])%list)
  /\ (forall collection collection_id,
        _parse_collection_id env collection = inr collection_id ->
        calls_of (after (delete_collection env collection config) t) =
        (calls_of t
         ++ [(DELETE, (batch ++ "/collections/" ++ str collection_id)%string)])%list)
  (* pages of the iterators *)
  /\ (forall it,
        features it = [] -> finished it = false ->
        calls_of (after (__next__ env it) t) =
        (calls_of t ++ [(GET, it_url it)])%list)
  (* the configuration of a new handle *)
  /\ (forall request_id request_info h,
        __init__ env request_id request_info config = inr h ->
        sh_base_url (SentinelHubBatch.config h) = base).
Proof.
  cbv zeta.
  pose proof (methods_call_built_urls config s t) as H. cbv zeta in H.
  assert (Hbase : sh_base_url (config_or_default env config) =
                  match config with
                  | Some c => sh_base_url c
                  | None => sh_base_url (SHConfig_default env)
                  end) by now destruct config.
  assert (Hjob : _get_process_url env (Some (SentinelHubBatch.config (self s)))
                   (request_id (self s)) =
                 if truthy (request_id (self s))
                 then (sh_base_url (SentinelHubBatch.config (self s))
                       ++ "/api/v1/batch/process")
                      ++ "/" ++ str (request_id (self s))
                 else sh_base_url (SentinelHubBatch.config (self s))
                      ++ "/api/v1/batch/process").
  { destruct (truthy (request_id (self s))) eqn:E;
      [rewrite _get_process_url_id by exact E; now rewrite append_assoc
      | now rewrite _get_process_url_jobs]. }
  assert (Htiles : forall tile_id,
             _get_tiles_url env (self s) tile_id =
             if truthy tile_id
             then _get_process_url env (Some (SentinelHubBatch.config (self s)))
                    (request_id (self s)) ++ "/tiles/" ++ str tile_id
             else _get_process_url env (Some (SentinelHubBatch.config (self s)))
                    (request_id (self s)) ++ "/tiles").
  { intros tile_id. destruct (truthy tile_id) eqn:E;
      [now rewrite _get_tiles_url_tile | now rewrite _get_tiles_url_all]. }
  destruct H as ((Hb & _ & _ & _ & _ & Hg & Hc) & Hcreate & Hiter & Hui & Hupd
                 & Hdel & Hcall & Hact & Hre & Hget & Hitiles & Hitg & Hgtg
                 & Hicol & Hgcol & Hccol & Hucol & Hdcol & Hnext).
  rewrite <- Hbase, <- Hjob.
  repeat match goal with |- _ /\ _ => split end; try assumption;
    try apply Hact.
  - intros id. destruct (truthy id) eqn:E;
      [rewrite _get_process_url_id by exact E
      | rewrite _get_process_url_jobs by exact E];
      now rewrite append_assoc.
  - intros tile_id. rewrite Hget, Htiles. reflexivity.
  - intros request_id request_info h Hinit. unfold __init__ in Hinit.
    destruct (negb _); [discriminate|].
    destruct (if truthy request_id then _ else _); [discriminate|].
    now inversion Hinit.
Qed.

End Hierarchy.

(** The verbs and URLs of a few calls on job1 and on a collection. *)
Lemma urls_and_verbs_witness :
  calls_of (trace (after (start_job Scenario.no_tiles)
                     (mkState Scenario.job1 []))) =
    [(POST, Scenario.job_url ++ "/start")]
  /\ calls_of (after (delete_collection Scenario.no_tiles
                        (ACollectionValue (JStr "c1")) None) []) =
       [(DELETE,
         "https://services.sentinel-hub.com/api/v1/batch/collections/c1")]
  /\ _get_process_url Scenario.no_tiles None (JStr "job1") = Scenario.job_url.
Proof.
  pose proof (urls_and_verbs Scenario.no_tiles None (mkState Scenario.job1 []) [])
    as H.
  cbv zeta in H.
  destruct H as ((_ & Hid & _) & _ & _ & _ & _ & _ & Hcall & _ & _ & _ & _
                 & _ & _ & _ & _ & _ & _ & Hdelete & _).
  split; [|split].
  - exact (Hcall "start").
  - exact (Hdelete (ACollectionValue (JStr "c1")) (JStr "c1") eq_refl).
  - exact (Hid (JStr "job1")).
Defined.

(** C8, as the claim states it, fails for an identifier that is not true:
    the job URL of the identifier [0] is the URL of all jobs, and so is that
    of the empty identifier; the handle built from a description whose id is
    [0] reads the list of jobs for its description and starts its job at
    [/process/start], where the hierarchy has [/process/0] and
    [/process/0/start]. *)
Lemma falsy_id_addresses_all_jobs :
  let h := mkInstance (JNum 0) Scenario.sh_config (JObj [("id", JNum 0)]) in
  _get_process_url Scenario.no_tiles None (JNum 0) = Scenario.jobs_url
  /\ _get_process_url Scenario.no_tiles None (JStr EmptyString) =
     Scenario.jobs_url
  /\ __init__ Scenario.no_tiles JNull (JObj [("id", JNum 0)]) None = inr h
  /\ calls_of (trace (after (update_info Scenario.no_tiles) (mkState h []))) =
     [(GET, Scenario.jobs_url)]
  /\ calls_of (trace (after (start_job Scenario.no_tiles) (mkState h []))) =
     [(POST, Scenario.jobs_url ++ "/start")].
Proof. repeat split; reflexivity. Qed.

(** ** The latest request *)

Section Latest.

Variable env : Env.

(** A handle built from a description that carries its id. *)
Lemma init_from_info (d : dict) (id : json) (config : option SHConfig) :
  dict_get "id" d = Some id ->
  __init__ env JNull (JObj d) config =
  inr (mkInstance id (config_or_default env config) (JObj d)).
Proof.
  intros Hid. unfold __init__, or_. cbn [truthy].
  destruct d as [|kv d]; [discriminate|].
  cbn [negb subscript]. now rewrite Hid.
Qed.

(** C7: [get_latest_request] makes one call, a GET of the jobs URL for the
    page of an iterator built with the parameters [sort='created:desc'] and
    [count=1].  When the page holds jobs it returns the handle of the first
    one; when the page holds none it raises the [ValueError], and in no case
    does it return without a handle. *)
Theorem get_latest_request_one_or_error (config : option SHConfig) (t : Trace) :
  let latest_request_iter :=
    iter_requests env JNull JNull (JStr "created:desc") config
      [("count", JNum 1)] in
  let params := JObj [("sort", JStr "created:desc"); ("count", JNum 1)] in
  let r := mkRequest
             (sh_base_url (config_or_default env config)
              ++ "/api/v1/batch/process")
             JNull None (feed_params env params None) in
  it_params (feature_iterator latest_request_iter) = params
  /\ after (get_latest_request env config) t = (t ++ [Call r])%list
  /\ verb r = GET
  /\ (forall page,
        service env t r = inr page -> feed_items env page = Some [] ->
        get_latest_request env config t =
        (Raise (ValueError "No batch request is available"),
         (t ++ [Call r])%list))
  /\ (forall page d id rest,
        service env t r = inr page ->
        feed_items env page = Some (JObj d :: rest) ->
        dict_get "id" d = Some id ->
        get_latest_request env config t =
        (Return (mkInstance id (config_or_default env config) (JObj d)),
         (t ++ [Call r])%list))
  /\ (forall h t', get_latest_request env config t = (Return h, t') ->
        exists page request_info rest,
          service env t r = inr page
          /\ feed_items env page = Some (request_info :: rest)
          /\ _request_info h = request_info).
Proof.
  cbv zeta.
  set (params := JObj [("sort", JStr "created:desc"); ("count", JNum 1)]).
  set (r := mkRequest _ JNull None (feed_params env params None)).
  assert (Hrun : get_latest_request env config t =
                 match service env t r with
                 | inl msg => (Raise (DownloadFailedException msg),
                               (t ++ [Call r])%list)
                 | inr page =>
                     match feed_items env page with
                     | None => (Raise (MissingDataInRequestException
                                         "No requests found"),
                                (t ++ [Call r])%list)
                     | Some [] => (Raise (ValueError
                                            "No batch request is available"),
                                   (t ++ [Call r])%list)
                     | Some (x :: _) =>
                         match __init__ env JNull x config with
                         | inr h => (Return h, (t ++ [Call r])%list)
                         | inl e => (Raise e, (t ++ [Call r])%list)
                         end
                     end
                 end).
  { unfold get_latest_request, try_except, next, __next__, bind, get_json.
    cbn [iter_requests feature_iterator new_iterator features finished
         it_url it_params next_token started exception_message
         generator_config].
    change (_get_process_url env config JNull)
      with (_get_batch_url env config ++ "/process").
    unfold _get_batch_url. rewrite append_assoc. cbn [append].
    change (JObj (remove_undefined _)) with params. fold r.
    destruct (service env t r) as [msg|page]; [reflexivity|].
    destruct (feed_items env page) as [[|x rest]|]; try reflexivity.
    unfold ret, lift_result.
    destruct (__init__ env JNull x config) as [e|h] eqn:Hinit;
      [|reflexivity].
    unfold raise.
    destruct e; try reflexivity.
    (* the constructor never raises StopIteration *)
    unfold __init__ in Hinit.
    destruct (negb _); [discriminate|].
    destruct (truthy JNull); [discriminate|].
    unfold subscript in Hinit.
    destruct x; try discriminate.
    destruct (dict_get "id" d); discriminate. }
  split; [reflexivity|]. split; [|split; [reflexivity|]].
  - unfold after. rewrite Hrun.
    destruct (service env t r) as [msg|page]; [reflexivity|].
    destruct (feed_items env page) as [[|x rest]|]; try reflexivity.
    now destruct (__init__ env JNull x config).
  - split; [|split].
    + intros page Hs Hitems. now rewrite Hrun, Hs, Hitems.
    + intros page d id rest Hs Hitems Hid.
      now rewrite Hrun, Hs, Hitems, (init_from_info _ _ _ Hid).
    + intros h t' H. rewrite Hrun in H.
      destruct (service env t r) as [msg|page] eqn:Hs; [discriminate|].
      destruct (feed_items env page) as [[|x rest]|] eqn:Hitems;
        try discriminate.
      destruct (__init__ env JNull x config) as [e|h'] eqn:Hinit;
        [discriminate|].
      inversion H; subst. exists page, x, rest.
      split; [reflexivity|]. split; [exact Hitems|].
      unfold __init__ in Hinit. destruct (negb _); [discriminate|].
      destruct (if truthy JNull then _ else _); [discriminate|].
      now inversion Hinit.
Qed.

End Latest.

(** The feed with one job and the empty feed. *)
Lemma get_latest_request_one_or_error_witness :
  fst (get_latest_request Scenario.one_job None []) =
    Return (mkInstance (JStr "job1") Scenario.sh_config (Scenario.job "DONE" 3))
  /\ fst (get_latest_request Scenario.no_jobs None []) =
       Raise (ValueError "No batch request is available").
Proof.
  split.
  - destruct (get_latest_request_one_or_error Scenario.one_job None [])
      as (_ & _ & _ & _ & Hone & _). cbv zeta in Hone.
    now rewrite (Hone (Scenario.page [Scenario.job "DONE" 3])
                   [("id", JStr "job1"); ("status", JStr "DONE");
                    ("tileCount", JNum 3)] (JStr "job1") []
                   eq_refl eq_refl eq_refl).
  - destruct (get_latest_request_one_or_error Scenario.no_jobs None [])
      as (_ & _ & _ & Hnone & _). cbv zeta in Hnone.
    now rewrite (Hnone (Scenario.page []) eq_refl eq_refl).
Defined.

(** ** Invariants of a run *)

Section Respects.

Context {S : Type}.

Variable R : S -> S -> Prop.

Hypothesis R_refl : forall s, R s s.

Hypothesis R_trans : forall s1 s2 s3, R s1 s2 -> R s2 s3 -> R s1 s3.

(** Every run of [m] takes a state to one related to it. *)
Definition respects {A : Type} (m : M S A) : Prop := forall s, R s (after m s).

Lemma respects_quiet {A : Type} (m : M S A) : quiet m -> respects m.
Proof. intros H s. rewrite H. apply R_refl. Qed.

Lemma respects_ret {A : Type} (a : A) : respects (ret a).
Proof. intros s. apply R_refl. Qed.

Lemma respects_raise {A : Type} (e : exn) : respects (@raise S A e).
Proof. intros s. apply R_refl. Qed.

Lemma respects_out_of_fuel {A : Type} : respects (@out_of_fuel S A).
Proof. intros s. apply R_refl. Qed.

Lemma respects_bind {A B : Type} (m : M S A) (k : A -> M S B) :
  respects m -> (forall a, respects (k a)) -> respects (bind m k).
Proof.
  intros Hm Hk s. specialize (Hm s). unfold after, bind in *.
  destruct (m s) as [[a|e|] s1]; simpl in *; try exact Hm.
  eapply R_trans; [exact Hm | apply Hk].
Qed.

Lemma respects_try_except {A : Type} (m : M S A)
                          (handler : exn -> option (M S A)) :
  respects m -> (forall e h, handler e = Some h -> respects h) ->
  respects (try_except m handler).
Proof.
  intros Hm Hh s. specialize (Hm s). unfold after, try_except in *.
  destruct (m s) as [[a|e|] s1]; simpl in *; try exact Hm.
  destruct (handler e) as [h|] eqn:E; [|exact Hm].
  eapply R_trans; [exact Hm | apply (Hh e h E)].
Qed.

Lemma respects_with_exit {A : Type} (m : M S A) (leave : S -> S) :
  respects m -> (forall s, R s (leave s)) -> respects (with_exit m leave).
Proof.
  intros Hm Hl s. specialize (Hm s). unfold after, with_exit in *.
  destruct (m s) as [[a|e|] s1]; simpl in *; try exact Hm;
    (eapply R_trans; [exact Hm | apply Hl]).
Qed.

(** What a run relates is what its result was computed in. *)
Lemma respects_run {A : Type} (m : M S A) s r s' :
  respects m -> m s = (r, s') -> R s s'.
Proof. intros Hm H. specialize (Hm s). unfold after in Hm. now rewrite H in Hm. Qed.

End Respects.

Section MonitorFacts.

Variable env : Env.

(** The handle is the one it was. *)
Definition same_self (s s' : State) : Prop := self s' = self s.

Lemma same_self_refl s : same_self s s.
Proof. reflexivity. Qed.

Lemma same_self_trans s1 s2 s3 :
  same_self s1 s2 -> same_self s2 s3 -> same_self s1 s3.
Proof. unfold same_self. congruence. Qed.

Lemma same_self_liftIO {A : Type} (io : IO A) : respects same_self (liftIO io).
Proof. intros s. unfold after, liftIO, same_self. now destruct (io (trace s)). Qed.

Ltac keeps_self :=
  repeat first
    [ apply same_self_liftIO
    | apply (respects_ret same_self same_self_refl)
    | apply (respects_raise same_self same_self_refl)
    | apply (respects_out_of_fuel same_self same_self_refl)
    | apply (respects_quiet same_self same_self_refl); solve [solve_quiet]
    | apply (respects_bind same_self same_self_trans); [|intros ?]
    | apply (respects_try_except same_self same_self_trans);
      [|let e := fresh "e" in let h := fresh "h" in let H := fresh "H" in
        intros e h H; destruct e; inversion H; subst]
    | match goal with
      | |- respects _ (match ?x with _ => _ end) => destruct x
      | |- respects _ (if ?b then _ else _) => destruct b
      end ].

Lemma same_self_log format args : respects same_self (log format args).
Proof. unfold log. keeps_self. Qed.

Lemma same_self_sleep seconds : respects same_self (sleep seconds).
Proof. unfold sleep. keeps_self. Qed.

Lemma same_self_bar desc op : respects same_self (bar desc op).
Proof. unfold bar. keeps_self. Qed.

Lemma same_self_tiles_loop fuel it acc :
  respects same_self (tiles_loop env fuel it acc).
Proof.
  revert it acc. induction fuel as [|fuel IH]; intros it acc; simpl.
  - keeps_self.
  - unfold for_next. keeps_self. apply IH.
Qed.

Lemma same_self_get_batch_tiles_per_status fuel :
  respects same_self (get_batch_tiles_per_status env fuel).
Proof.
  unfold get_batch_tiles_per_status.
  apply (respects_bind same_self same_self_trans).
  - intros s. reflexivity.
  - intros h. apply same_self_tiles_loop.
Qed.

Lemma same_self_sampling_loop fuel sleep_time total finished success last :
  respects same_self
    (sampling_loop env fuel sleep_time total finished success last).
Proof.
  revert finished success last.
  induction fuel as [|fuel IH]; intros finished success last; simpl.
  - keeps_self.
  - apply (respects_bind same_self same_self_trans);
      [apply (respects_quiet same_self same_self_refl); solve_quiet|].
    intros [|]; [|keeps_self].
    apply (respects_bind same_self same_self_trans);
      [apply same_self_get_batch_tiles_per_status|].
    intros tiles.
    repeat first
      [ apply same_self_bar | apply same_self_sleep | apply IH
      | apply (respects_ret same_self same_self_refl)
      | apply (respects_quiet same_self same_self_refl); solve [solve_quiet]
      | apply (respects_bind same_self same_self_trans); [|intros ?]
      | match goal with
        | |- respects _ (if ?b then _ else _) => destruct b
        end ].
Qed.

(** *** The analysis phase *)

(** The handle holds a description with this status. *)
Definition holds_status (s : State) (status : json) : Prop :=
  exists d, _request_info (self s) = JObj d /\ dict_get "status" d = Some status.

(** The run was one of the handle [h]: it kept the identifier and the
    configuration of [h] and made no call but the one of [update_info]. *)
Definition only_info_calls (h : instance) (s s' : State) : Prop :=
  request_id (self s) = request_id h /\ config (self s) = config h ->
  (request_id (self s') = request_id h /\ config (self s') = config h)
  /\ exists new, trace s' = (trace s ++ new)%list
                 /\ forall r, In (Call r) new -> r = info_request env h.

Lemma only_info_calls_refl h s : only_info_calls h s s.
Proof.
  intros H. split; [exact H|]. exists []. split; [now rewrite app_nil_r|].
  intros r [].
Qed.

Lemma only_info_calls_trans h s1 s2 s3 :
  only_info_calls h s1 s2 -> only_info_calls h s2 s3 -> only_info_calls h s1 s3.
Proof.
  intros H12 H23 H1. destruct (H12 H1) as (H2 & new1 & E1 & C1).
  destruct (H23 H2) as (H3 & new2 & E2 & C2).
  split; [exact H3|]. exists (new1 ++ new2)%list. split.
  - now rewrite E2, E1, app_assoc.
  - intros r Hin. apply in_app_or in Hin. destruct Hin; auto.
Qed.

(** A method that keeps the handle and records something that is no call. *)
Lemma only_info_calls_emit h e :
  (forall r, e <> Call r) -> respects (only_info_calls h) (liftIO (emit e)).
Proof.
  intros He s H. unfold after, liftIO, emit. simpl. split; [exact H|].
  exists [e]. split; [reflexivity|].
  intros r [E|[]]. now apply He in E.
Qed.

Lemma only_info_calls_update_info h :
  respects (only_info_calls h) (update_info env).
Proof.
  intros s (Hid & Hcfg). unfold after. rewrite update_info_run.
  assert (E : info_request env (self s) = info_request env h)
    by (unfold info_request; now rewrite Hid, Hcfg).
  destruct (service env (trace s) _); simpl; (split; [now split|]);
    exists [Call (info_request env (self s))]; (split; [reflexivity|]);
    intros r [Hr|[]]; congruence.
Qed.

Lemma only_info_calls_info h : respects (only_info_calls h) (info env).
Proof.
  intros s (Hid & Hcfg). unfold after. rewrite info_run.
  assert (E : info_request env (self s) = info_request env h)
    by (unfold info_request; now rewrite Hid, Hcfg).
  destruct (is_None _);
    [destruct (service env (trace s) _); simpl; (split; [now split|]);
     exists [Call (info_request env (self s))]; (split; [reflexivity|]);
     intros r [Hr|[]]; congruence|].
  now apply only_info_calls_refl.
Qed.

Ltac only_info :=
  repeat first
    [ apply only_info_calls_update_info
    | apply only_info_calls_info
    | apply only_info_calls_emit; discriminate
    | apply (respects_ret _ (only_info_calls_refl _))
    | apply (respects_raise _ (only_info_calls_refl _))
    | apply (respects_out_of_fuel _ (only_info_calls_refl _))
    | apply (respects_quiet _ (only_info_calls_refl _)); solve [solve_quiet]
    | apply (respects_bind _ (only_info_calls_trans _)); [|intros ?]
    | match goal with
      | |- respects _ (if ?b then _ else _) => destruct b
      end ].

Lemma only_info_calls_wait h fuel analysis_sleep_time status :
  respects (only_info_calls h)
    (wait_for_analysis env fuel analysis_sleep_time status).
Proof.
  revert status. induction fuel as [|fuel IH]; intros status; simpl.
  - only_info.
  - unfold log, sleep. only_info. apply IH.
Qed.

Lemma only_info_calls_analysis_phase h fuel analysis_sleep_time :
  respects (only_info_calls h) (analysis_phase env fuel analysis_sleep_time).
Proof. unfold analysis_phase. only_info. apply only_info_calls_wait. Qed.

(** Reading the status of the description leaves the handle holding it. *)
Lemma info_status_Return s status s' :
  bind (info env) (fun i => getitem i "status") s = (Return status, s') ->
  holds_status s' status.
Proof.
  intros H. apply bind_Return in H. destruct H as (i & s1 & Hinfo & Hget).
  apply info_Return in Hinfo. apply getitem_Return in Hget.
  destruct Hget as (-> & d & -> & Hd). now exists d.
Qed.

Lemma wait_for_analysis_Return fuel analysis_sleep_time status s st s' :
  wait_for_analysis env fuel analysis_sleep_time status s = (Return st, s') ->
  holds_status s status ->
  in_strs st ["CREATED"; "ANALYSING"; "ANALYSIS_DONE"] = false
  /\ holds_status s' st.
Proof.
  revert status s. induction fuel as [|fuel IH]; intros status s;
    cbn [wait_for_analysis];
    destruct (in_strs status _) eqn:E; intros H Hheld;
    try discriminate;
    try (inversion H; subst; now split).
  apply bind_Return in H. destruct H as (? & s1 & _ & H).
  apply bind_Return in H. destruct H as (? & s2 & _ & H).
  apply bind_Return in H. destruct H as (? & s3 & _ & H).
  apply bind_Return in H. destruct H as (i & s4 & Hinfo & H).
  apply bind_Return in H. destruct H as (status' & s5 & Hget & H).
  apply (IH _ _ H).
  apply (info_status_Return s3). unfold bind. rewrite Hinfo. exact Hget.
Qed.

Lemma analysis_phase_Return fuel analysis_sleep_time s st s' :
  analysis_phase env fuel analysis_sleep_time s = (Return st, s') ->
  in_strs st ["CREATED"; "ANALYSING"; "ANALYSIS_DONE"] = false
  /\ holds_status s' st.
Proof.
  unfold analysis_phase. intros H.
  apply bind_Return in H. destruct H as (? & s1 & _ & H).
  apply bind_Return in H. destruct H as (i & s2 & Hinfo & H).
  apply bind_Return in H. destruct H as (status & s3 & Hget & H).
  apply (wait_for_analysis_Return _ _ _ _ _ _ H).
  apply (info_status_Return s1). unfold bind. rewrite Hinfo. exact Hget.
Qed.

(** The URL of the job is none of its tile URLs. *)
Lemma tiles_url_not_info (h : instance) (tile_id : json) :
  url (info_request env h) <> _get_tiles_url env h tile_id.
Proof.
  unfold info_request, _get_tiles_url. cbn [url].
  destruct (truthy tile_id); [rewrite append_assoc|];
    apply append_neq; discriminate.
Qed.

(** C3: when the job leaves the analysis with the status [FAILED] or
    [CANCELED], [monitor_batch_job] raises the [RuntimeError] of
    [raise_for_status] in the very state in which the analysis phase ended,
    and the calls of the whole run are calls of [update_info]: none asks for
    tiles. *)
Theorem monitor_raises_on_failed_analysis
    (fuel : nat) (sleep_time analysis_sleep_time : Z) (s : State)
    (status : json) (s1 : State) :
  analysis_phase env fuel analysis_sleep_time s = (Return status, s1) ->
  in_strs status ["FAILED"; "CANCELED"] = true ->
  (exists d,
     _request_info (self s1) = JObj d
     /\ monitor_batch_job env fuel sleep_time analysis_sleep_time s =
        (Raise (RuntimeError
                  (status_error_message env (request_id (self s1)) status
                     (match dict_get "error" d with
                      | Some e => e
                      | None => JStr ""
                      end))), s1))
  /\ exists new,
       trace s1 = (trace s ++ new)%list
       /\ forall r, In (Call r) new ->
            r = info_request env (self s)
            /\ forall tile_id, url r <> _get_tiles_url env (self s) tile_id.
Proof.
  intros Hphase Hfailed.
  destruct (analysis_phase_Return _ _ _ _ _ Hphase) as (_ & d & Hcache & Hd).
  split.
  - exists d. split; [exact Hcache|].
    unfold monitor_batch_job. rewrite (bind_step _ _ _ _ _ Hphase).
    apply bind_raise.
    rewrite (raise_for_status_run env _ _ _ _ Hcache Hd).
    now rewrite Hfailed.
  - pose proof (respects_run _ _ _ _ _
                  (only_info_calls_analysis_phase (self s) fuel
                     analysis_sleep_time) Hphase) as Hcalls.
    destruct (Hcalls (conj eq_refl eq_refl)) as (_ & new & Htrace & Hnew).
    exists new. split; [exact Htrace|].
    intros r Hin. rewrite (Hnew r Hin). split; [reflexivity|].
    intros tile_id. apply tiles_url_not_info.
Qed.

End MonitorFacts.

(** The job whose analysis fails: the monitor raises after three calls of
    [update_info]. *)
Lemma monitor_raises_on_failed_analysis_witness :
  fst (monitor_batch_job Scenario.failed_analysis 5 120 5
         (mkState Scenario.job1 [])) =
    Raise (RuntimeError
             ("Raised for batch request job1 with status FAILED"
              ++ " and error message: " ++ quote ++ "Out of processing units"
              ++ quote))
  /\ calls_of (trace (snd (monitor_batch_job Scenario.failed_analysis 5 120 5
                             (mkState Scenario.job1 [])))) =
       [(GET, Scenario.job_url); (GET, Scenario.job_url); (GET, Scenario.job_url)].
Proof.
  destruct (monitor_raises_on_failed_analysis Scenario.failed_analysis 5 120 5
              (mkState Scenario.job1 []) (JStr "FAILED")
              (snd (analysis_phase Scenario.failed_analysis 5 5
                      (mkState Scenario.job1 [])))
              eq_refl eq_refl) as ((d & Hcache & Hrun) & _).
  injection Hcache as <-. rewrite Hrun. split; reflexivity.
Defined.

(** ** Jobs without tiles *)

Section ZeroTiles.

Variable env : Env.

(** A sampling loop that hands out a sample has run its body. *)
Lemma sampling_loop_first fuel sleep_time total finished success s x s' :
  sampling_loop env fuel sleep_time total finished success None s =
  (Return (Some x), s') ->
  lt_int finished total = inr true.
Proof.
  destruct fuel; cbn [sampling_loop]; unfold bind at 1;
    destruct (lt_int finished total) as [e|[|]]; simpl;
    try reflexivity; discriminate.
Qed.

(** A sampling loop whose test fails at once hands back what it was given. *)
Lemma sampling_loop_skip fuel sleep_time total finished success last s :
  lt_int finished total = inr false ->
  sampling_loop env fuel sleep_time total finished success last s =
  (Return last, s).
Proof.
  intros H. destruct fuel; cbn [sampling_loop]; unfold bind at 1;
    now rewrite H.
Qed.

Lemma with_exit_Return {S A : Type} (m : M S A) (leave : S -> S) s a s' :
  with_exit m leave s = (Return a, s') ->
  exists s1, m s = (Return a, s1) /\ s' = leave s1.
Proof.
  unfold with_exit. destruct (m s) as [[a'|e|] s1]; intros H; inversion H.
  eauto.
Qed.

(** C9: [monitor_batch_job] returns only for a job whose [tileCount] counts
    as at least 1.  For a job that leaves the analysis with a status that is
    no failure and whose [tileCount] is 0 (or less), the sampling loop does
    not run: the bars are opened and closed without a call in between, and
    the test of [failed_tiles_num], which was never assigned, raises
    [UnboundLocalError]. *)
Theorem monitor_needs_a_tile
    (fuel : nat) (sleep_time analysis_sleep_time : Z) (s : State) :
  (forall tiles s',
     monitor_batch_job env fuel sleep_time analysis_sleep_time s =
     (Return tiles, s') ->
     exists d total_tile_count n,
       _request_info (self s') = JObj d
       /\ dict_get "tileCount" d = Some total_tile_count
       /\ as_int total_tile_count = Some n
       /\ 1 <= n)
  /\ (forall status s1 d total_tile_count n,
        analysis_phase env fuel analysis_sleep_time s = (Return status, s1) ->
        in_strs status ["FAILED"; "CANCELED"] = false ->
        _request_info (self s1) = JObj d ->
        dict_get "tileCount" d = Some total_tile_count ->
        as_int total_tile_count = Some n ->
        n <= 0 ->
        monitor_batch_job env fuel sleep_time analysis_sleep_time s =
        (Raise (UnboundLocalError "failed_tiles_num"),
         mkState (self s1)
           (trace s1
            ++ (if eq_str status "PROCESSING"
                then [LogInfo "Batch job is running" []] else [])
            ++ [Bar "Progress rate" (BarOpen total_tile_count);
                Bar "Success rate" (BarOpen (JNum 0));
                Bar "Success rate" BarClose;
                Bar "Progress rate" BarClose])%list)).
Proof.
  split.
  - intros tiles s' H. unfold monitor_batch_job in H.
    apply bind_Return in H. destruct H as (status & s1 & Hphase & H).
    apply bind_Return in H. destruct H as (? & s2 & Hraise & H).
    apply bind_Return in H. destruct H as (? & s3 & Hlog & H).
    apply bind_Return in H. destruct H as (i & s4 & Hinfo & H).
    apply bind_Return in H. destruct H as (total & s5 & Hget & H).
    apply bind_Return in H. destruct H as (? & s6 & Hbar1 & H).
    apply bind_Return in H. destruct H as (? & s7 & Hbar2 & H).
    apply bind_Return in H. destruct H as (last & s8 & Hloop & H).
    apply info_Return in Hinfo. apply getitem_Return in Hget.
    destruct Hget as (-> & d & -> & Hd).
    apply with_exit_Return in Hloop. destruct Hloop as (s7' & Hloop & ->).
    destruct last as [last|]; [|discriminate].
    apply sampling_loop_first in Hloop as Hlt.
    unfold lt_int in Hlt. destruct (as_int total) as [n|] eqn:Hn;
      [|discriminate].
    exists d, total, n. repeat split; try assumption.
    + rewrite <- Hinfo.
      apply (respects_run _ _ _ _ _ (same_self_bar _ _)) in Hbar1.
      apply (respects_run _ _ _ _ _ (same_self_bar _ _)) in Hbar2.
      apply (respects_run _ _ _ _ _
               (same_self_sampling_loop env _ _ _ _ _ _)) in Hloop.
      apply bind_Return in H. destruct H as (? & s9 & Hfinal & H).
      inversion H; subst.
      assert (Hlast : same_self (close_bars s7') s').
      { destruct (failed_tiles_num last =? 0).
        - inversion Hfinal; subst. reflexivity.
        - now apply (respects_run _ _ _ _ _ (same_self_log _ _)) in Hfinal. }
      unfold same_self in *. rewrite Hlast. cbn [close_bars self].
      congruence.
    + injection Hlt as Hlt. apply Z.ltb_lt in Hlt. lia.
  - intros status s1 d total n Hphase Hok Hcache Hd Hn Hle.
    destruct (analysis_phase_Return _ _ _ _ _ _ Hphase)
      as (_ & d' & Hcache' & Hstatus).
    rewrite Hcache in Hcache'. injection Hcache' as <-.
    unfold monitor_batch_job. rewrite (bind_step _ _ _ _ _ Hphase).
    assert (Hraise : raise_for_status env (AStatuses ["FAILED"; "CANCELED"]) s1
                     = (Return tt, s1)).
    { rewrite (raise_for_status_run env _ _ _ _ Hcache Hstatus).
      now rewrite Hok. }
    rewrite (bind_step _ _ _ _ _ Hraise).
    assert (Hlt : lt_int 0 total = inr false).
    { unfold lt_int. rewrite Hn. f_equal. apply Z.ltb_ge. lia. }
    set (s2 := mkState (self s1)
                 (trace s1
                  ++ (if eq_str status "PROCESSING"
                      then [LogInfo "Batch job is running" []] else []))%list).
    assert (Hlog : (if eq_str status "PROCESSING"
                    then log "Batch job is running" [] else ret tt) s1
                   = (Return tt, s2)).
    { subst s2. destruct (eq_str status "PROCESSING"); [reflexivity|].
      rewrite app_nil_r. now destruct s1. }
    rewrite (bind_step _ _ _ _ _ Hlog).
    assert (Hinfo : info env s2 = (Return (JObj d), s2)).
    { rewrite info_cached; subst s2; cbn [self]; rewrite Hcache; reflexivity. }
    rewrite (bind_step _ _ _ _ _ Hinfo).
    unfold getitem at 1. rewrite Hd. unfold bind at 1, ret at 1.
    unfold bar at 1, bind at 1, liftIO at 1, emit at 1.
    unfold bar at 1, bind at 1, liftIO at 1, emit at 1.
    cbn [trace self].
    unfold bind, with_exit. rewrite sampling_loop_skip by exact Hlt.
    unfold raise, close_bars. cbn [trace self]. subst s2. cbn [trace self].
    now rewrite <- !app_assoc.
Qed.

End ZeroTiles.

(** The job whose analysis finds no tile: after two calls of [update_info]
    the monitor raises, without a call for tiles. *)
Lemma monitor_needs_a_tile_witness :
  fst (monitor_batch_job Scenario.no_tiles 5 120 5 (mkState Scenario.job1 [])) =
    Raise (UnboundLocalError "failed_tiles_num")
  /\ calls_of (trace (snd (monitor_batch_job Scenario.no_tiles 5 120 5
                             (mkState Scenario.job1 [])))) =
       [(GET, Scenario.job_url); (GET, Scenario.job_url)].
Proof.
  destruct (monitor_needs_a_tile Scenario.no_tiles 5 120 5
              (mkState Scenario.job1 [])) as (_ & Hzero).
  rewrite (Hzero (JStr "PROCESSING")
             (snd (analysis_phase Scenario.no_tiles 5 5
                     (mkState Scenario.job1 [])))
             [("id", JStr "job1"); ("status", JStr "PROCESSING");
              ("tileCount", JNum 0)]
             (JNum 0) 0 eq_refl eq_refl eq_refl eq_refl eq_refl (Z.le_refl 0)).
  split; reflexivity.
Defined.

(** ** The report of failed tiles *)

Section Report.

Variable env : Env.

(** The counts of a sample are the counts of its tiles. *)
Definition counted (x : sample) : Prop :=
  processed_tiles_num x = tiles_count "PROCESSED" (tiles_per_status x)
  /\ failed_tiles_num x = tiles_count "FAILED" (tiles_per_status x).

Lemma sampling_loop_counted fuel sleep_time total finished success last s x s' :
  (forall y, last = Some y -> counted y) ->
  sampling_loop env fuel sleep_time total finished success last s =
  (Return (Some x), s') ->
  counted x.
Proof.
  revert finished success last s.
  induction fuel as [|fuel IH]; intros finished success last s Hlast;
    cbn [sampling_loop]; intros H;
    apply bind_Return in H; destruct H as (continue & s1 & _ & H);
    destruct continue; try discriminate;
    try (inversion H; subst; now apply Hlast).
  apply bind_Return in H. destruct H as (tiles & s2 & _ & H).
  apply bind_Return in H. destruct H as (? & s3 & _ & H).
  apply bind_Return in H. destruct H as (? & s4 & _ & H).
  apply bind_Return in H. destruct H as (? & s5 & _ & H).
  apply bind_Return in H. destruct H as (again & s6 & _ & H).
  apply bind_Return in H. destruct H as (? & s7 & _ & H).
  eapply IH; [|exact H]. intros y Hy. inversion Hy. now split.
Qed.

(** C1, on the code: when the mapping [monitor_batch_job] returns holds
    failed tiles, the record logged last carries the number of its PROCESSED
    tiles, where the claim has the number of its FAILED ones; when it holds
    none, no such record is logged and the trace ends with the closing of
    the bars. *)
Theorem monitor_reports_processed_count
    (fuel : nat) (sleep_time analysis_sleep_time : Z) (s : State)
    (tiles : tiles_dict) (s' : State) :
  monitor_batch_job env fuel sleep_time analysis_sleep_time s =
  (Return tiles, s') ->
  (tiles_count "FAILED" tiles <> 0 ->
   exists t,
     trace s' =
     (t ++ [LogInfo "Batch job failed for %d tiles"
              [JNum (tiles_count "PROCESSED" tiles)]])%list)
  /\ (tiles_count "FAILED" tiles = 0 ->
      exists t, trace s' = (t ++ [Bar "Progress rate" BarClose])%list).
Proof.
  intros H. unfold monitor_batch_job in H.
  apply bind_Return in H. destruct H as (status & s1 & _ & H).
  apply bind_Return in H. destruct H as (? & s2 & _ & H).
  apply bind_Return in H. destruct H as (? & s3 & _ & H).
  apply bind_Return in H. destruct H as (i & s4 & _ & H).
  apply bind_Return in H. destruct H as (total & s5 & _ & H).
  apply bind_Return in H. destruct H as (? & s6 & _ & H).
  apply bind_Return in H. destruct H as (? & s7 & _ & H).
  apply bind_Return in H. destruct H as (last & s8 & Hloop & H).
  apply with_exit_Return in Hloop. destruct Hloop as (s7' & Hloop & ->).
  destruct last as [last|]; [|discriminate].
  apply sampling_loop_counted in Hloop; [|discriminate].
  destruct Hloop as (Hp & Hf).
  apply bind_Return in H. destruct H as (? & s9 & Hfinal & H).
  inversion H; subst. rewrite <- Hp, <- Hf.
  destruct (Z.eqb_spec (failed_tiles_num last) 0) as [E|E].
  - inversion Hfinal; subst. split; [contradiction|]. intros _.
    unfold close_bars. cbn [trace].
    exists (trace s7' ++ [Bar "Success rate" BarClose])%list.
    now rewrite <- app_assoc.
  - split; [|contradiction]. intros _.
    unfold log, liftIO, emit in Hfinal. inversion Hfinal; subst.
    cbn [trace]. eauto.
Qed.

End Report.

(** The job of three tiles, two of them processed and one failed at the
    end: the monitor returns them by status and its last record says that
    the job failed for 2 tiles. *)
Lemma monitor_reports_processed_count_witness :
  let run := monitor_batch_job Scenario.three_tiles 10 120 5
               (mkState Scenario.job1 []) in
  fst run =
    Return [(JStr "PROCESSED",
             [Scenario.tile 1 "PROCESSED"; Scenario.tile 2 "PROCESSED"]);
            (JStr "FAILED", [Scenario.tile 3 "FAILED"])]
  /\ exists t,
       trace (snd run) =
       (t ++ [LogInfo "Batch job failed for %d tiles" [JNum 2]])%list.
Proof.
  cbv zeta. split; [reflexivity|].
  destruct (monitor_reports_processed_count Scenario.three_tiles 10 120 5
              (mkState Scenario.job1 [])
              [(JStr "PROCESSED",
                [Scenario.tile 1 "PROCESSED"; Scenario.tile 2 "PROCESSED"]);
               (JStr "FAILED", [Scenario.tile 3 "FAILED"])]
              (snd (monitor_batch_job Scenario.three_tiles 10 120 5
                      (mkState Scenario.job1 [])))
              eq_refl) as (Hfailed & _).
  apply Hfailed. discriminate.
Defined.

(** ** The end of the monitor *)

Section Finish.

Variable env : Env.

(** The trace ends with the update of the success bar. *)
Definition ends_with_update (t : Trace) : Prop :=
  exists t0 delta, t = (t0 ++ [Bar "Success rate" (BarUpdate delta)])%list.

Lemma lift_result_Return {S A : Type} (r : result A) (s : S) a s' :
  lift_result r s = (Return a, s') -> r = inr a /\ s' = s.
Proof. destruct r; intros H; inversion H. now split. Qed.

(** The sample a sampling loop hands out is counted from its tiles, it
    fails the test of the loop, and nothing was done after it but the update
    of the success bar. *)
Lemma sampling_loop_exit fuel sleep_time total finished success last s x s' :
  (forall y, last = Some y ->
     counted y /\ finished = processed_tiles_num y + failed_tiles_num y) ->
  last = None \/ ends_with_update (trace s) \/ lt_int finished total = inr true ->
  sampling_loop env fuel sleep_time total finished success last s =
  (Return (Some x), s') ->
  counted x
  /\ lt_int (processed_tiles_num x + failed_tiles_num x) total = inr false
  /\ ends_with_update (trace s').
Proof.
  revert finished success last s.
  induction fuel as [|fuel IH]; intros finished success last s Hlast Hend;
    cbn [sampling_loop]; intros H;
    apply bind_Return in H; destruct H as (continue & s1 & Htest & H);
    apply lift_result_Return in Htest; destruct Htest as (Hlt & ->);
    destruct continue; try discriminate.
  - inversion H; subst. destruct (Hlast x eq_refl) as (Hc & ->).
    repeat split; try apply Hc; try exact Hlt.
    destruct Hend as [E|[E|E]]; [discriminate | exact E | congruence].
  - apply bind_Return in H. destruct H as (tiles & s2 & _ & H).
    apply bind_Return in H. destruct H as (? & s3 & _ & H).
    apply bind_Return in H. destruct H as (? & s4 & _ & H).
    apply bind_Return in H. destruct H as (? & s5 & Hupdate & H).
    apply bind_Return in H. destruct H as (again & s6 & Hagain & H).
    apply bind_Return in H. destruct H as (? & s7 & Hsleep & H).
    apply lift_result_Return in Hagain. destruct Hagain as (Hlt' & ->).
    eapply IH; [| |exact H].
    + intros y Hy. inversion Hy. now repeat split.
    + right. destruct again; [now right|left].
      inversion Hsleep; subst.
      unfold bar, liftIO, emit in Hupdate. inversion Hupdate.
      now exists (trace s4), (tiles_count "PROCESSED" tiles - success).
  - inversion H; subst. destruct (Hlast x eq_refl) as (Hc & ->).
    repeat split; try apply Hc; try exact Hlt.
    destruct Hend as [E|[E|E]]; [discriminate | exact E | congruence].
Qed.

(** What a run of the monitor that returns went through. *)
Lemma monitor_Return fuel sleep_time analysis_sleep_time s tiles s' :
  monitor_batch_job env fuel sleep_time analysis_sleep_time s =
  (Return tiles, s') ->
  exists d total s7 last s8,
    _request_info (self s') = JObj d
    /\ dict_get "tileCount" d = Some total
    /\ sampling_loop env fuel sleep_time total 0 0 None s7 = (Return (Some last), s8)
    /\ tiles = tiles_per_status last
    /\ trace s' =
       (trace (close_bars s8)
        ++ (if failed_tiles_num last =? 0 then []
            else [LogInfo "Batch job failed for %d tiles"
                    [JNum (processed_tiles_num last)]]))%list.
Proof.
  intros H. unfold monitor_batch_job in H.
  apply bind_Return in H. destruct H as (status & s1 & _ & H).
  apply bind_Return in H. destruct H as (? & s2 & _ & H).
  apply bind_Return in H. destruct H as (? & s3 & _ & H).
  apply bind_Return in H. destruct H as (i & s4 & Hinfo & H).
  apply bind_Return in H. destruct H as (total & s5 & Hget & H).
  apply bind_Return in H. destruct H as (? & s6 & Hbar1 & H).
  apply bind_Return in H. destruct H as (? & s7 & Hbar2 & H).
  apply bind_Return in H. destruct H as (last & s8 & Hloop & H).
  apply info_Return in Hinfo. apply getitem_Return in Hget.
  destruct Hget as (-> & d & -> & Hd).
  apply with_exit_Return in Hloop. destruct Hloop as (s8' & Hloop & ->).
  destruct last as [last|]; [|discriminate].
  apply bind_Return in H. destruct H as (? & s9 & Hfinal & H).
  inversion H; subst.
  exists d, total, s7, last, s8'.
  apply (respects_run _ _ _ _ _ (same_self_bar _ _)) in Hbar1.
  apply (respects_run _ _ _ _ _ (same_self_bar _ _)) in Hbar2.
  pose proof (respects_run _ _ _ _ _
                (same_self_sampling_loop env _ _ _ _ _ _) Hloop) as Hself.
  unfold same_self in *.
  destruct (failed_tiles_num last =? 0).
  - inversion Hfinal; subst. rewrite app_nil_r.
    repeat split; try assumption. cbn [close_bars self]. congruence.
  - unfold log, liftIO, emit in Hfinal. inversion Hfinal; subst.
    repeat split; try assumption. cbn [close_bars self]. congruence.
Qed.

(** X1: [monitor_batch_job] returns only when every tile is finished: the
    PROCESSED and FAILED tiles of the mapping it returns are at least as
    many as the [tileCount] of the description the handle holds. *)
Theorem monitor_returns_all_finished
    (fuel : nat) (sleep_time analysis_sleep_time : Z) (s : State)
    (tiles : tiles_dict) (s' : State) :
  monitor_batch_job env fuel sleep_time analysis_sleep_time s =
  (Return tiles, s') ->
  exists d total n,
    _request_info (self s') = JObj d
    /\ dict_get "tileCount" d = Some total
    /\ as_int total = Some n
    /\ n <= tiles_count "PROCESSED" tiles + tiles_count "FAILED" tiles.
Proof.
  intros H. apply monitor_Return in H.
  destruct H as (d & total & s7 & last & s8 & Hcache & Hd & Hloop & -> & _).
  apply sampling_loop_exit in Hloop; [|discriminate|now left].
  destruct Hloop as ((Hp & Hf) & Hlt & _).
  unfold lt_int in Hlt. destruct (as_int total) as [n|] eqn:Hn; [|discriminate].
  exists d, total, n. repeat split; try assumption.
  injection Hlt as Hlt. apply Z.ltb_ge in Hlt. rewrite <- Hp, <- Hf. exact Hlt.
Qed.

(** X2: a run of the monitor that returns does not sleep after its last
    sample: the update of the success bar is followed by the closing of the
    two bars and, when tiles failed, by the record of the failure, and by
    nothing else. *)
Theorem monitor_returns_without_last_sleep
    (fuel : nat) (sleep_time analysis_sleep_time : Z) (s : State)
    (tiles : tiles_dict) (s' : State) :
  monitor_batch_job env fuel sleep_time analysis_sleep_time s =
  (Return tiles, s') ->
  exists t delta,
    trace s' =
    (t ++ [Bar "Success rate" (BarUpdate delta);
           Bar "Success rate" BarClose;
           Bar "Progress rate" BarClose]
       ++ (if tiles_count "FAILED" tiles =? 0 then []
           else [LogInfo "Batch job failed for %d tiles"
                   [JNum (tiles_count "PROCESSED" tiles)]]))%list.
Proof.
  intros H. apply monitor_Return in H.
  destruct H as (d & total & s7 & last & s8 & _ & _ & Hloop & -> & Htrace).
  apply sampling_loop_exit in Hloop; [|discriminate|now left].
  destruct Hloop as ((Hp & Hf) & _ & t & delta & Hend).
  exists t, delta. rewrite Htrace, <- Hp, <- Hf.
  unfold close_bars. cbn [trace]. rewrite Hend.
  now rewrite <- !app_assoc.
Qed.

End Finish.

(** The job of three tiles: the monitor returns the three of them finished. *)
Lemma monitor_returns_all_finished_witness :
  let run := monitor_batch_job Scenario.three_tiles 10 120 5
               (mkState Scenario.job1 []) in
  exists tiles,
    fst run = Return tiles
    /\ 3 <= tiles_count "PROCESSED" tiles + tiles_count "FAILED" tiles.
Proof.
  cbv zeta.
  exists [(JStr "PROCESSED",
           [Scenario.tile 1 "PROCESSED"; Scenario.tile 2 "PROCESSED"]);
          (JStr "FAILED", [Scenario.tile 3 "FAILED"])].
  split; [reflexivity|].
  destruct (monitor_returns_all_finished Scenario.three_tiles 10 120 5
              (mkState Scenario.job1 [])
              [(JStr "PROCESSED",
                [Scenario.tile 1 "PROCESSED"; Scenario.tile 2 "PROCESSED"]);
               (JStr "FAILED", [Scenario.tile 3 "FAILED"])]
              (snd (monitor_batch_job Scenario.three_tiles 10 120 5
                      (mkState Scenario.job1 [])))
              eq_refl)
    as (d & total & n & Hcache & Hd & Hn & Hle).
  vm_compute in Hcache. injection Hcache as <-.
  vm_compute in Hd. injection Hd as <-.
  vm_compute in Hn. injection Hn as <-. exact Hle.
Defined.

(** The job of three tiles: its run ends with the bars and the record of
    the failure; the only sleep of 120 seconds lies between its two samples. *)
Lemma monitor_returns_without_last_sleep_witness :
  exists t delta,
    trace (snd (monitor_batch_job Scenario.three_tiles 10 120 5
                  (mkState Scenario.job1 []))) =
    (t ++ [Bar "Success rate" (BarUpdate delta);
           Bar "Success rate" BarClose;
           Bar "Progress rate" BarClose;
           LogInfo "Batch job failed for %d tiles" [JNum 2]])%list.
Proof.
  destruct (monitor_returns_without_last_sleep Scenario.three_tiles 10 120 5
              (mkState Scenario.job1 [])
              [(JStr "PROCESSED",
                [Scenario.tile 1 "PROCESSED"; Scenario.tile 2 "PROCESSED"]);
               (JStr "FAILED", [Scenario.tile 3 "FAILED"])]
              (snd (monitor_batch_job Scenario.three_tiles 10 120 5
                      (mkState Scenario.job1 [])))
              eq_refl) as (t & delta & H).
  exists t, delta. exact H.
Defined.

(** ** Tiles by status *)

Section Grouping.

(** The body of the loop of [get_batch_tiles_per_status] for one tile. *)
Definition add_tile (tile : json) (tiles_per_status : tiles_dict)
  : result tiles_dict :=
  match subscript tile "status" with
  | inl e => inl e
  | inr status =>
      if hashable status then
        let bucket := match tiles_get status tiles_per_status with
                      | Some l => l
                      | None => []
                      end in
        inr (tiles_set status (bucket ++ [tile])%list
               (tiles_set status bucket tiles_per_status))
      else inl (TypeError "unhashable type")
  end.

(** The loop over a list of tiles. *)
Fixpoint group (tiles : list json) (tiles_per_status : tiles_dict)
  : result tiles_dict :=
  match tiles with
  | [] => inr tiles_per_status
  | tile :: tiles' =>
      match add_tile tile tiles_per_status with
      | inl e => inl e
      | inr d => group tiles' d
      end
  end.

(** The tiles a dict holds for a status. *)
Definition bucket_of (k : json) (d : tiles_dict) : list json :=
  match tiles_get k d with Some l => l | None => [] end.

(** The tile has the status [k], as a dict compares keys. *)
Definition has_status (k : json) (tile : json) : bool :=
  match subscript tile "status" with
  | inr status => key_eqb k status
  | inl _ => false
  end.

Lemma key_eqb_refl k : hashable k = true -> key_eqb k k = true.
Proof.
  destruct k as [|b|n|x|l|d]; simpl; try discriminate; intros _;
    try reflexivity.
  - destruct b; reflexivity.
  - apply Z.eqb_refl.
  - apply String.eqb_refl.
Qed.

Lemma key_eqb_sym a b : key_eqb a b = key_eqb b a.
Proof.
  destruct a as [|x|m|x|l|d], b as [|y|n|y|l'|d']; simpl; try reflexivity;
    try apply Z.eqb_sym; try apply String.eqb_sym.
Qed.

Lemma key_eqb_trans a b c :
  key_eqb a b = true -> key_eqb b c = true -> key_eqb a c = true.
Proof.
  destruct a as [|x|m|x|l|d], b as [|y|n|y|l'|d'], c as [|z|p|z|l''|d''];
    simpl; try discriminate; try reflexivity;
    rewrite ?Z.eqb_eq, ?String.eqb_eq; congruence.
Qed.

(** Equal keys find the same bucket. *)
Lemma tiles_get_eqb a b d :
  key_eqb a b = true -> tiles_get a d = tiles_get b d.
Proof.
  intros Hab. induction d as [|[k l] d IH]; simpl; [reflexivity|].
  destruct (key_eqb a k) eqn:Ea, (key_eqb b k) eqn:Eb; try reflexivity;
    try exact IH.
  - rewrite key_eqb_sym in Hab.
    now rewrite (key_eqb_trans _ _ _ Hab Ea) in Eb.
  - now rewrite (key_eqb_trans _ _ _ Hab Eb) in Ea.
Qed.

Lemma tiles_get_set_same k v d :
  hashable k = true -> tiles_get k (tiles_set k v d) = Some v.
Proof.
  intros Hk. induction d as [|[k1 l1] d IH]; simpl.
  - now rewrite key_eqb_refl.
  - destruct (key_eqb k k1) eqn:E; simpl; rewrite E; [reflexivity | exact IH].
Qed.

Lemma tiles_get_set_other a k v d :
  key_eqb a k = false -> tiles_get a (tiles_set k v d) = tiles_get a d.
Proof.
  intros Hak. induction d as [|[k1 l1] d IH]; simpl.
  - now rewrite Hak.
  - destruct (key_eqb k k1) eqn:E; simpl.
    + destruct (key_eqb a k1) eqn:Ea; [|reflexivity].
      rewrite key_eqb_sym in E.
      now rewrite (key_eqb_trans _ _ _ Ea E) in Hak.
    + destruct (key_eqb a k1); [reflexivity | exact IH].
Qed.

(** The bucket a tile is added to grows by that tile; the others stay. *)
Lemma bucket_of_add_tile k tile d d' :
  add_tile tile d = inr d' ->
  bucket_of k d' =
  (bucket_of k d ++ (if has_status k tile then [tile] else []))%list.
Proof.
  unfold add_tile, has_status, bucket_of.
  destruct (subscript tile "status") as [e|status]; [discriminate|].
  destruct (hashable status) eqn:Hh; [|discriminate].
  intros H. injection H as <-.
  destruct (key_eqb k status) eqn:E.
  - rewrite (tiles_get_eqb _ _ _ E), tiles_get_set_same by exact Hh.
    now rewrite (tiles_get_eqb _ _ d E).
  - rewrite !tiles_get_set_other by exact E. now rewrite app_nil_r.
Qed.

Lemma bucket_of_group k tiles d d' :
  group tiles d = inr d' ->
  bucket_of k d' = (bucket_of k d ++ filter (has_status k) tiles)%list.
Proof.
  revert d. induction tiles as [|tile tiles IH]; intros d; simpl.
  - intros H. injection H as <-. now rewrite app_nil_r.
  - destruct (add_tile tile d) as [e|d1] eqn:E; [discriminate|].
    intros H. rewrite (IH _ H), (bucket_of_add_tile k _ _ _ E), <- app_assoc.
    now destruct (has_status k tile).
Qed.

(** No bucket of the dict is empty. *)
Definition no_empty_bucket (d : tiles_dict) : Prop :=
  forall k l, In (k, l) d -> l <> [].

Lemma In_tiles_set k v d k' l' :
  In (k', l') (tiles_set k v d) -> In (k', l') d \/ l' = v.
Proof.
  induction d as [|[k1 l1] d IH]; simpl.
  - intros [H|[]]. right. now inversion H.
  - destruct (key_eqb k k1); simpl.
    + intros [H|H]; [right; now inversion H | left; now right].
    + intros [H|H]; [left; now left|].
      destruct (IH H); [left; now right | now right].
Qed.

Lemma tiles_set_twice k v1 v2 d :
  hashable k = true ->
  tiles_set k v2 (tiles_set k v1 d) = tiles_set k v2 d.
Proof.
  intros Hk. induction d as [|[k1 l1] d IH]; simpl.
  - now rewrite key_eqb_refl.
  - destruct (key_eqb k k1) eqn:E; simpl; rewrite E; [reflexivity|].
    now rewrite IH.
Qed.

Lemma no_empty_bucket_add_tile tile d d' :
  no_empty_bucket d -> add_tile tile d = inr d' -> no_empty_bucket d'.
Proof.
  unfold add_tile. intros Hd.
  destruct (subscript tile "status") as [e|status]; [discriminate|].
  destruct (hashable status) eqn:Hh; [|discriminate].
  intros H. injection H as <-. rewrite tiles_set_twice by exact Hh.
  intros k l Hin. apply In_tiles_set in Hin. destruct Hin as [Hin| ->].
  - exact (Hd k l Hin).
  - now destruct (match tiles_get status d with Some l => l | None => [] end).
Qed.

Lemma no_empty_bucket_group tiles d d' :
  no_empty_bucket d -> group tiles d = inr d' -> no_empty_bucket d'.
Proof.
  revert d. induction tiles as [|tile tiles IH]; intros d Hd; simpl.
  - intros H. now injection H as <-.
  - destruct (add_tile tile d) as [e|d1] eqn:E; [discriminate|].
    apply IH. exact (no_empty_bucket_add_tile _ _ _ Hd E).
Qed.

End Grouping.

Section TilesLoop.

Variable env : Env.

(** The items of the pages the service answered to the calls of [new],
    made one after the other from the trace [t] on. *)
Fixpoint fetched (t new : Trace) : list json :=
  match new with
  | [] => []
  | e :: new' =>
      (match e with
       | Call r =>
           match service env t r with
           | inr page =>
               match feed_items env page with Some l => l | None => [] end
           | inl _ => []
           end
       | _ => []
       end ++ fetched (t ++ [e]) new')%list
  end.

(** The call an iterator makes for its next page. *)
Definition page_request (it : SentinelHubFeatureIterator) : Request :=
  mkRequest (it_url it) JNull None (feed_params env (it_params it) (next_token it)).

(** One step of a loop over an iterator, case by case. *)
Lemma for_next_run (it : SentinelHubFeatureIterator) (s : State) :
  for_next env it s =
  match features it with
  | x :: rest =>
      (Return (Some (x, mkIterator (it_url it) (it_params it)
                          (exception_message it) rest (next_token it)
                          (started it) (finished it))), s)
  | [] =>
      if finished it then (Return None, s)
      else
        let s1 := mkState (self s) (trace s ++ [Call (page_request it)])%list in
        match service env (trace s) (page_request it) with
        | inl msg => (Raise (DownloadFailedException msg), s1)
        | inr page =>
            match feed_items env page with
            | None =>
                if started it then (Return None, s1)
                else (Raise (MissingDataInRequestException
                               (exception_message it)), s1)
            | Some [] => (Return None, s1)
            | Some (x :: rest) =>
                (Return (Some (x, mkIterator (it_url it) (it_params it)
                                    (exception_message it) rest
                                    (feed_next env page) true
                                    (match feed_next env page with
                                     | None => true
                                     | Some _ => false
                                     end))), s1)
            end
        end
  end.
Proof.
  destruct s as [h t]. unfold for_next, try_except, __next__, page_request.
  cbn [trace self].
  destruct (features it) as [|x rest]; [|reflexivity].
  destruct (finished it); [reflexivity|].
  unfold bind, liftIO, get_json. cbn [trace self].
  destruct (service env t _) as [msg|page]; [reflexivity|].
  destruct (feed_items env page) as [[|x rest]|]; try reflexivity.
  now destruct (started it).
Qed.

(** The loop of [get_batch_tiles_per_status] groups, in order, the items
    the iterator holds and the items of the pages it fetches; its calls are
    GETs of the URL of the iterator. *)
Lemma tiles_loop_groups fuel it acc s d s' :
  tiles_loop env fuel it acc s = (Return d, s') ->
  self s' = self s
  /\ exists new,
       trace s' = (trace s ++ new)%list
       /\ group (features it ++ fetched (trace s) new) acc = inr d
       /\ Forall (fun e => exists r, e = Call r /\ url r = it_url it
                                     /\ verb r = GET) new.
Proof.
  revert it acc s. induction fuel as [|fuel IH]; intros it acc s;
    cbn [tiles_loop]; [discriminate|].
  intros H. apply bind_Return in H. destruct H as (step & s1 & Hnext & H).
  assert (Hbody : forall tile it1,
            step = Some (tile, it1) ->
            exists acc1, add_tile tile acc = inr acc1
                         /\ tiles_loop env fuel it1 acc1 s1 = (Return d, s')).
  { intros tile it1 ->.
    apply bind_Return in H. destruct H as (status & s2 & Hget & H).
    apply getitem_Return in Hget. destruct Hget as (-> & o & -> & Ho).
    unfold add_tile, subscript. rewrite Ho.
    destruct (hashable status); [|discriminate]. eauto. }
  rewrite for_next_run in Hnext.
  destruct (features it) as [|x rest] eqn:Hf.
  - destruct (finished it).
    + inversion Hnext; subst. inversion H; subst.
      split; [reflexivity|]. exists []. rewrite app_nil_r. now repeat split.
    + cbv zeta in Hnext.
      destruct (service env (trace s) (page_request it)) as [msg|page] eqn:Hs;
        [discriminate|].
      destruct (feed_items env page) as [[|x rest]|] eqn:Hitems.
      * inversion Hnext; subst. inversion H; subst.
        split; [reflexivity|]. exists [Call (page_request it)].
        cbn [fetched]. rewrite Hs, Hitems. repeat split.
        constructor; [|constructor]. now exists (page_request it).
      * inversion Hnext; subst.
        destruct (Hbody _ _ eq_refl) as (acc1 & Hadd & Hloop).
        apply IH in Hloop. destruct Hloop as (Hself & new & Ht & Hg & Hcalls).
        split; [exact Hself|]. exists (Call (page_request it) :: new).
        cbn [trace self features it_url] in *. split; [|split].
        -- now rewrite Ht, <- app_assoc.
        -- cbn [fetched]. rewrite Hs, Hitems. cbn [app group].
           now rewrite Hadd.
        -- constructor; [now exists (page_request it) | exact Hcalls].
      * destruct (started it); [|discriminate].
        inversion Hnext; subst. inversion H; subst.
        split; [reflexivity|]. exists [Call (page_request it)].
        cbn [fetched]. rewrite Hs, Hitems. repeat split.
        constructor; [|constructor]. now exists (page_request it).
  - inversion Hnext; subst.
    destruct (Hbody _ _ eq_refl) as (acc1 & Hadd & Hloop).
    apply IH in Hloop. destruct Hloop as (Hself & new & Ht & Hg & Hcalls).
    split; [exact Hself|]. exists new.
    cbn [features it_url] in *. split; [exact Ht|]. split; [|exact Hcalls].
    cbn [app group]. now rewrite Hadd.
Qed.

(** X3: when [get_batch_tiles_per_status] returns, the handle is as it was,
    every call made is a GET of the tiles URL of the job, and the dict
    returned is the grouping, tile by tile and in the order of the service,
    of all the items of the pages answered to these calls. *)
Theorem get_batch_tiles_per_status_groups_fetched
    (fuel : nat) (s : State) (d : tiles_dict) (s' : State) :
  get_batch_tiles_per_status env fuel s = (Return d, s') ->
  self s' = self s
  /\ exists new,
       trace s' = (trace s ++ new)%list
       /\ group (fetched (trace s) new) [] = inr d
       /\ Forall (fun e => exists r, e = Call r
                                     /\ url r = _get_tiles_url env (self s) JNull
                                     /\ verb r = GET) new.
Proof.
  unfold get_batch_tiles_per_status, bind, get_self. intros H.
  apply tiles_loop_groups in H. exact H.
Qed.

(** X4: in the dict [get_batch_tiles_per_status] builds from the tiles it
    reads, the bucket of a status holds exactly the tiles with that status,
    in the order in which they were read, and no bucket is empty. *)
Theorem group_buckets_by_status (tiles : list json) (d : tiles_dict) :
  group tiles [] = inr d ->
  (forall k, bucket_of k d = filter (has_status k) tiles)
  /\ (forall k l, In (k, l) d -> l <> [])
  /\ (forall status, tiles_count status d =
                     Z.of_nat (length (filter (has_status (JStr status)) tiles))).
Proof.
  intros H. split; [|split].
  - intros k. now rewrite (bucket_of_group k _ _ _ H).
  - apply (no_empty_bucket_group _ _ _ (fun k l (Hin : In (k, l) []) =>
                                          match Hin with end) H).
  - intros status. unfold tiles_count.
    pose proof (bucket_of_group (JStr status) _ _ _ H) as Hb.
    unfold bucket_of in Hb. cbn [tiles_get app] in Hb.
    destruct (tiles_get (JStr status) d); rewrite <- Hb; reflexivity.
Qed.

End TilesLoop.

(** The first sample of the job of three tiles: one page, three buckets. *)
Lemma get_batch_tiles_per_status_groups_fetched_witness :
  let run := get_batch_tiles_per_status Scenario.three_tiles 10
               (mkState Scenario.job1 []) in
  fst run =
    Return [(JStr "PROCESSED", [Scenario.tile 1 "PROCESSED"]);
            (JStr "PENDING", [Scenario.tile 2 "PENDING"]);
            (JStr "FAILED", [Scenario.tile 3 "FAILED"])]
  /\ exists new,
       trace (snd run) = new
       /\ group (fetched Scenario.three_tiles [] new) [] =
          inr [(JStr "PROCESSED", [Scenario.tile 1 "PROCESSED"]);
               (JStr "PENDING", [Scenario.tile 2 "PENDING"]);
               (JStr "FAILED", [Scenario.tile 3 "FAILED"])].
Proof.
  cbv zeta. split; [reflexivity|].
  destruct (get_batch_tiles_per_status_groups_fetched Scenario.three_tiles 10
              (mkState Scenario.job1 [])
              [(JStr "PROCESSED", [Scenario.tile 1 "PROCESSED"]);
               (JStr "PENDING", [Scenario.tile 2 "PENDING"]);
               (JStr "FAILED", [Scenario.tile 3 "FAILED"])]
              (snd (get_batch_tiles_per_status Scenario.three_tiles 10
                      (mkState Scenario.job1 [])))
              eq_refl) as (_ & new & Htrace & Hgroup & _).
  exists new. split; [exact Htrace | exact Hgroup].
Defined.

(** Four tiles read in this order: the two processed ones share a bucket,
    in their order. *)
Lemma group_buckets_by_status_witness :
  exists d,
    group [Scenario.tile 1 "PROCESSED"; Scenario.tile 2 "FAILED";
           Scenario.tile 3 "PROCESSED"; Scenario.tile 4 "PENDING"] [] = inr d
    /\ bucket_of (JStr "PROCESSED") d =
       [Scenario.tile 1 "PROCESSED"; Scenario.tile 3 "PROCESSED"]
    /\ tiles_count "FAILED" d = 1.
Proof.
  exists [(JStr "PROCESSED",
           [Scenario.tile 1 "PROCESSED"; Scenario.tile 3 "PROCESSED"]);
          (JStr "FAILED", [Scenario.tile 2 "FAILED"]);
          (JStr "PENDING", [Scenario.tile 4 "PENDING"])].
  split; [reflexivity|].
  destruct (group_buckets_by_status
              [Scenario.tile 1 "PROCESSED"; Scenario.tile 2 "FAILED";
               Scenario.tile 3 "PROCESSED"; Scenario.tile 4 "PENDING"]
              [(JStr "PROCESSED",
                [Scenario.tile 1 "PROCESSED"; Scenario.tile 3 "PROCESSED"]);
               (JStr "FAILED", [Scenario.tile 2 "FAILED"]);
               (JStr "PENDING", [Scenario.tile 4 "PENDING"])]
              eq_refl) as (Hbucket & _ & Hcount).
  split; [exact (Hbucket (JStr "PROCESSED")) | exact (Hcount "FAILED")].
Defined.

(** ** Creating a job *)

Section Create.

Variable env : Env.

(** The call [create] makes for the request payload [d]. *)
Definition create_request (d : dict) (tiling_grid output bucket_name
                                       description : json)
                          (config : option SHConfig) (kwargs : dict) : Request :=
  mkRequest (_get_process_url env config JNull)
    (JObj (create_payload (JObj d) tiling_grid output bucket_name description
             kwargs))
    None JNull.

(** The payload [create] reads from its first argument, if it finds one. *)
Definition request_payload (sentinelhub_request : request_arg) : option json :=
  match sentinelhub_request with
  | ASentinelHubRequest [] => None
  | ASentinelHubRequest (first :: _) => Some first
  | ARequestValue v => Some v
  end.

Lemma create_run sentinelhub_request tiling_grid output bucket_name description
                 config kwargs (t : Trace) :
  create env sentinelhub_request tiling_grid output bucket_name description
    config kwargs t =
  match request_payload sentinelhub_request with
  | None => (Raise (IndexError "list index out of range"), t)
  | Some (JObj d) =>
      let r := create_request d tiling_grid output bucket_name description
                 config kwargs in
      match service env t r with
      | inl msg => (Raise (DownloadFailedException msg), (t ++ [Call r])%list)
      | inr request_info =>
          match __init__ env JNull request_info config with
          | inr batch => (Return batch, (t ++ [Call r])%list)
          | inl e => (Raise e, (t ++ [Call r])%list)
          end
      end
  | Some _ =>
      (Raise (ValueError
                ("Parameter sentinelhub_request should be an instance of "
                 ++ "SentinelHubRequest or a dictionary with a request payload")),
       t)
  end.
Proof.
  unfold create, request_payload, create_request.
  destruct sentinelhub_request as [[|first rest]|v];
    unfold bind at 1, ret, raise; try reflexivity;
    match goal with |- context [match ?v with JNull => _ | _ => _ end] =>
      destruct v; try reflexivity end;
    unfold bind, get_json, lift_result, ret, raise; cbv zeta;
    match goal with |- context [service env t ?r] =>
      destruct (service env t r) as [msg|a]; [reflexivity|] end;
    now destruct (__init__ env JNull a config).
Qed.

(** X5: [create] checks its first argument before it calls the service: a
    request without a dict payload raises [ValueError], an empty
    [download_list] raises [IndexError], and the trace is left as it was.
    With a dict payload it makes one call, a POST of the jobs URL with the
    cleaned payload; the answer becomes the description held by the handle
    it returns, whose [info] then needs no call.  An answer without an id
    raises after the call was made. *)
Theorem create_checks_then_posts
    (sentinelhub_request : request_arg)
    (tiling_grid output bucket_name description : json)
    (config : option SHConfig) (kwargs : dict) (t : Trace) :
  let run := create env sentinelhub_request tiling_grid output bucket_name
               description config kwargs t in
  (request_payload sentinelhub_request = None ->
   run = (Raise (IndexError "list index out of range"), t))
  /\ (forall v, request_payload sentinelhub_request = Some v ->
        (forall d, v <> JObj d) ->
        snd run = t /\ exists msg, fst run = Raise (ValueError msg))
  /\ (forall d, request_payload sentinelhub_request = Some (JObj d) ->
        let r := create_request d tiling_grid output bucket_name description
                   config kwargs in
        snd run = (t ++ [Call r])%list
        /\ verb r = POST
        /\ (forall msg, service env t r = inl msg ->
              fst run = Raise (DownloadFailedException msg))
        /\ (forall a id,
              service env t r = inr (JObj a) -> dict_get "id" a = Some id ->
              let batch := mkInstance id (config_or_default env config) (JObj a) in
              fst run = Return batch
              /\ info env (mkState batch (snd run)) =
                 (Return (JObj a), mkState batch (snd run)))
        /\ (forall a,
              service env t r = inr (JObj a) -> dict_get "id" a = None ->
              fst run = Raise (if truthy (JObj a) then KeyError "id"
                               else ValueError
                                      ("One of the parameters request_id and "
                                       ++ "request_info has to be given")))).
Proof.
  cbv zeta. rewrite create_run. split; [|split].
  - now intros ->.
  - intros v -> Hv. destruct v; simpl; eauto. now destruct (Hv d).
  - intros d ->. cbv zeta.
    set (r := create_request d tiling_grid output bucket_name description
                config kwargs).
    split; [|split; [reflexivity|split; [|split]]].
    + destruct (service env t r) as [msg|a]; [reflexivity|].
      now destruct (__init__ env JNull a config).
    + now intros msg ->.
    + intros a id -> Hid. rewrite (init_from_info env _ _ _ Hid).
      split; [reflexivity|]. apply info_cached. reflexivity.
    + intros a -> Hid. unfold __init__, or_. cbn [truthy].
      destruct a as [|kv a]; [reflexivity|].
      cbn [negb subscript]. now rewrite Hid.
Qed.

End Create.

(** A job created on a service that answers with its description. *)
Lemma create_checks_then_posts_witness :
  let service := Scenario.environment
                   [(Scenario.jobs_url, [Scenario.job "CREATED" 0])] in
  fst (create service
         (ARequestValue (JObj [("evalscript", JStr "//VERSION=3")]))
         (JObj [("id", JNum 1); ("resolution", JNum 10)])
         JNull (JStr "bucket") JNull None [] []) =
    Return (mkInstance (JStr "job1") Scenario.sh_config
              (Scenario.job "CREATED" 0))
  /\ exists msg,
       fst (create service (ARequestValue (JStr "evalscript")) JNull JNull
              JNull JNull None [] []) = Raise (ValueError msg).
Proof.
  cbv zeta. split.
  - destruct (create_checks_then_posts
                (Scenario.environment
                   [(Scenario.jobs_url, [Scenario.job "CREATED" 0])])
                (ARequestValue (JObj [("evalscript", JStr "//VERSION=3")]))
                (JObj [("id", JNum 1); ("resolution", JNum 10)])
                JNull (JStr "bucket") JNull None [] [])
      as (_ & _ & Hdict).
    destruct (Hdict [("evalscript", JStr "//VERSION=3")] eq_refl)
      as (_ & _ & _ & Hok & _).
    exact (proj1 (Hok [("id", JStr "job1"); ("status", JStr "CREATED");
                       ("tileCount", JNum 0)] (JStr "job1") eq_refl eq_refl)).
  - destruct (create_checks_then_posts
                (Scenario.environment
                   [(Scenario.jobs_url, [Scenario.job "CREATED" 0])])
                (ARequestValue (JStr "evalscript")) JNull JNull JNull JNull
                None [] [])
      as (_ & Hbad & _).
    exact (proj2 (Hbad (JStr "evalscript") eq_refl
                    ltac:(intros d; discriminate))).
Defined.

(** ** Collections *)

Section Collections.

Variable env : Env.

Abbreviation str := (Py.str (container_str env)).

(** X6: the collection methods read the identifier and the payload of
    their argument before they call the service, so an argument they cannot
    read raises with the trace left as it was: [create_collection] and
    [update_collection] need a [BatchCollection] or a dict, which a
    [DataCollection] or a bare identifier is not, while [delete_collection]
    takes any of them; a dict without ["id"] raises [KeyError].  With an
    argument they can read, each makes one call; [create_collection]
    returns the ["data"] of the answer and raises [KeyError] when the
    answer has none, [update_collection] returns the answer as it is. *)
Theorem collections_read_before_call
    (collection : collection_arg) (config : option SHConfig) (t : Trace) :
  (forall e, _to_dict env collection = inl e ->
     create_collection env collection config t = (Raise e, t)
     /\ exists msg, e = ValueError msg)
  /\ (forall e, _parse_collection_id env collection = inl e ->
        update_collection env collection config t = (Raise e, t)
        /\ delete_collection env collection config t = (Raise e, t))
  /\ (forall id e, _parse_collection_id env collection = inr id ->
        _to_dict env collection = inl e ->
        update_collection env collection config t = (Raise e, t))
  /\ (forall id text s,
        collection = ADataCollection id text
        \/ collection = ACollectionValue (JStr s) ->
        (exists msg, fst (update_collection env collection config t) =
                     Raise (ValueError msg))
        /\ snd (update_collection env collection config t) = t
        /\ exists id', _parse_collection_id env collection = inr id'
           /\ calls_of (snd (delete_collection env collection config t)) =
              (calls_of t
               ++ [(DELETE, (_get_collections_url env config ++ "/"
                             ++ str id')%string)])%list)
  /\ (forall d, collection = ACollectionValue (JObj d) ->
        dict_get "id" d = None ->
        update_collection env collection config t = (Raise (KeyError "id"), t)
        /\ delete_collection env collection config t = (Raise (KeyError "id"), t))
  /\ (forall payload answer,
        _to_dict env collection = inr payload ->
        let r := mkRequest (_get_collections_url env config) payload None JNull in
        service env t r = inr answer ->
        create_collection env collection config t =
        (match subscript answer "data" with
         | inr data => Return data
         | inl e => Raise e
         end, (t ++ [Call r])%list))
  /\ (forall id payload answer,
        _parse_collection_id env collection = inr id ->
        _to_dict env collection = inr payload ->
        let r := mkRequest (_get_collections_url env config ++ "/" ++ str id)
                   payload (Some PUT) JNull in
        service env t r = inr answer ->
        update_collection env collection config t =
        (Return answer, (t ++ [Call r])%list)).
Proof.
  repeat match goal with |- _ /\ _ => split end.
  - intros e H. unfold create_collection. rewrite H. split; [reflexivity|].
    destruct collection as [id d|id text|v]; simpl in H; try discriminate;
      [|destruct v]; inversion H; eauto.
  - intros e H. unfold update_collection, delete_collection. rewrite H.
    now split.
  - intros id e Hid H. unfold update_collection. rewrite Hid, H. reflexivity.
  - intros id text s [-> | ->]; simpl; eauto 10.
    + repeat split; eauto. eexists. split; [reflexivity|].
      unfold delete_collection. simpl. unfold bind, ret, get_json.
      destruct (service env t _); simpl; now rewrite calls_of_snoc.
    + repeat split; eauto. eexists. split; [reflexivity|].
      unfold delete_collection. simpl. unfold bind, ret, get_json.
      destruct (service env t _); simpl; now rewrite calls_of_snoc.
  - intros d -> Hid. unfold update_collection, delete_collection. simpl.
    rewrite Hid. now split.
  - intros payload answer H r Hs. unfold create_collection. rewrite H.
    unfold lift_result, bind at 1, ret at 1. unfold bind, get_json.
    fold r. rewrite Hs. unfold getitem, subscript.
    destruct answer; try reflexivity. now destruct (dict_get "data" d).
  - intros id payload answer Hid H r Hs. unfold update_collection.
    rewrite Hid, H. unfold lift_result, bind, ret, get_json. fold r.
    now rewrite Hs.
Qed.

End Collections.

(** A collection given by its identifier alone can be deleted, not updated. *)
Lemma collections_read_before_call_witness :
  (exists msg,
     fst (update_collection Scenario.no_jobs (ACollectionValue (JStr "c1"))
            None []) = Raise (ValueError msg))
  /\ snd (update_collection Scenario.no_jobs (ACollectionValue (JStr "c1"))
            None []) = []
  /\ calls_of (snd (delete_collection Scenario.no_jobs
                      (ACollectionValue (JStr "c1")) None [])) =
     [(DELETE, "https://services.sentinel-hub.com/api/v1/batch/collections/c1")].
Proof.
  destruct (collections_read_before_call Scenario.no_jobs
              (ACollectionValue (JStr "c1")) None [])
    as (_ & _ & _ & Hid & _).
  destruct (Hid JNull "" "c1" (or_intror eq_refl))
    as (Hupdate & Htrace & id' & Hparse & Hdelete).
  split; [exact Hupdate|]. split; [exact Htrace|].
  injection Hparse as <-. exact Hdelete.
Defined.

(** ** Tiling grids *)

Section TilingGrid.

(** What the dict display [{'id': ..., 'resolution': ..., **kwargs}] holds. *)
Definition grid_fields (grid_id resolution : json) (kwargs : dict) (k : string)
  : option json :=
  match dict_get k (rev kwargs) with
  | Some v => Some v
  | None => dict_get k [("id", grid_id); ("resolution", resolution)]
  end.

Lemma tiling_grid_run (grid_id resolution buffer : json) (kwargs : dict) :
  tiling_grid grid_id resolution buffer kwargs =
  let payload := dict_literal ([("id", grid_id); ("resolution", resolution)]
                               ++ kwargs) in
  if truthy buffer then
    match item_at buffer 0, item_at buffer 1 with
    | inl e, _ => inl e
    | inr _, inl e => inl e
    | inr x, inr y => inr (dict_literal (payload ++ [("bufferX", x); ("bufferY", y)]))
    end
  else inr payload.
Proof. reflexivity. Qed.

Lemma grid_payload_get grid_id resolution kwargs k :
  dict_get k (dict_literal ([("id", grid_id); ("resolution", resolution)]
                            ++ kwargs)) =
  grid_fields grid_id resolution kwargs k.
Proof.
  rewrite dict_get_literal, rev_app_distr, dict_get_app. unfold grid_fields.
  destruct (dict_get k (rev kwargs)); [reflexivity|].
  simpl. destruct (String.eqb k "resolution") eqn:E1,
    (String.eqb k "id") eqn:E2; try reflexivity.
  apply String.eqb_eq in E1, E2. congruence.
Qed.

(** X7: [tiling_grid] adds the buffer only when [buffer] is true: without a
    buffer ([None], an empty tuple) the payload is the dict display of the
    other arguments, values left as they are, [None] included; with a
    buffer of two or more items the keys [bufferX] and [bufferY] hold its
    first two, whatever the extra keyword arguments say, and the other keys
    are as without a buffer; a buffer of one item raises [IndexError]. *)
Theorem tiling_grid_buffer (grid_id resolution buffer : json) (kwargs : dict) :
  (truthy buffer = false ->
   exists payload,
     tiling_grid grid_id resolution buffer kwargs = inr payload
     /\ forall k, dict_get k payload = grid_fields grid_id resolution kwargs k)
  /\ (forall x y rest, buffer = JArr (x :: y :: rest) ->
        exists payload,
          tiling_grid grid_id resolution buffer kwargs = inr payload
          /\ dict_get "bufferX" payload = Some x
          /\ dict_get "bufferY" payload = Some y
          /\ forall k, k <> "bufferX" -> k <> "bufferY" ->
               dict_get k payload = grid_fields grid_id resolution kwargs k)
  /\ (forall x, buffer = JArr [x] ->
        tiling_grid grid_id resolution buffer kwargs =
        inl (IndexError "list index out of range"))
  /\ (dict_get "resolution" kwargs = None ->
      grid_fields grid_id resolution kwargs "resolution" = Some resolution)
  /\ (dict_get "id" kwargs = None ->
      grid_fields grid_id resolution kwargs "id" = Some grid_id).
Proof.
  rewrite tiling_grid_run. cbv zeta. repeat match goal with |- _ /\ _ => split end.
  - intros ->. eexists. split; [reflexivity|]. apply grid_payload_get.
  - intros x y rest ->. cbn [truthy item_at nth_error].
    eexists. split; [reflexivity|].
    repeat split.
    + rewrite dict_get_literal, rev_app_distr. reflexivity.
    + rewrite dict_get_literal, rev_app_distr. reflexivity.
    + intros k Hx Hy. rewrite dict_get_literal, rev_app_distr, dict_get_app.
      cbn [rev app dict_get].
      apply String.eqb_neq in Hx, Hy. rewrite Hx, Hy.
      rewrite dict_get_rev by apply NoDup_literal.
      apply grid_payload_get.
  - intros x ->. reflexivity.
  - intros H. unfold grid_fields. now rewrite (dict_get_rev_None _ _ H).
  - intros H. unfold grid_fields. now rewrite (dict_get_rev_None _ _ H).
Qed.

End TilingGrid.

(** A grid with a buffer of (0, 0): the tuple is true, so both keys are set. *)
Lemma tiling_grid_buffer_witness :
  tiling_grid (JNum 1) (JNum 10) (JArr [JNum 0; JNum 0]) [] =
    inr [("id", JNum 1); ("resolution", JNum 10);
         ("bufferX", JNum 0); ("bufferY", JNum 0)]
  /\ exists payload,
       tiling_grid (JNum 1) JNull (JArr []) [] = inr payload
       /\ dict_get "resolution" payload = Some JNull
       /\ dict_get "bufferX" payload = None.
Proof.
  split; [reflexivity|].
  destruct (tiling_grid_buffer (JNum 1) JNull (JArr []) [])
    as (Hnone & _ & _ & Hres & _).
  destruct (Hnone eq_refl) as (payload & Hrun & Hget).
  exists payload. split; [exact Hrun|]. split.
  - rewrite Hget. exact (Hres eq_refl).
  - rewrite Hget. reflexivity.
Defined.

(** ** Accessors of the description *)

Section Accessors.

Variable env : Env.

Definition has_slash (s : string) : bool :=
  existsb (Ascii.eqb "/"%char) (list_ascii_of_string s).

Lemma has_slash_app (a b : string) :
  has_slash (a ++ b) = has_slash a || has_slash b.
Proof.
  unfold has_slash. induction a as [|c a IH]; simpl; [reflexivity|].
  now rewrite IH, orb_assoc.
Qed.

Lemma after_last_slash_none (s : string) :
  has_slash s = false -> after_last_slash s = s.
Proof.
  destruct s as [|c s']; [reflexivity|]. unfold has_slash.
  cbn [list_ascii_of_string existsb after_last_slash].
  intros H. apply orb_false_iff in H. destruct H as (Hc & Hs).
  rewrite Hs. rewrite Ascii.eqb_sym in Hc. now rewrite Hc.
Qed.

(** What follows the last slash of [prefix/code] is [code]. *)
Lemma after_last_slash_app (prefix code : string) :
  has_slash code = false -> after_last_slash (prefix ++ "/" ++ code) = code.
Proof.
  intros Hcode. induction prefix as [|c p IH].
  - cbn [append after_last_slash]. fold (has_slash code).
    now rewrite Hcode.
  - assert (Hs : has_slash (p ++ String "/"%char code) = true)
      by now rewrite has_slash_app, orb_comm.
    cbn [append after_last_slash]. unfold has_slash in Hs. rewrite Hs.
    exact IH.
Qed.

(** The way from a description to its bounds. *)
Definition held_bounds (d process_request input bounds properties : dict)
  : Prop :=
  dict_get "processRequest" d = Some (JObj process_request)
  /\ dict_get "input" process_request = Some (JObj input)
  /\ dict_get "bounds" input = Some (JObj bounds)
  /\ dict_get "properties" bounds = Some (JObj properties).

(** How a call of a constructor ends. *)
Definition built {A : Type} (r : exn + A) : outcome A :=
  match r with
  | inl e => Raise e
  | inr a => Return a
  end.

(** X8: on a handle that holds its description the accessors make no call
    and leave the handle alone.  With a CRS given as [prefix/code], [bbox]
    and [geometry] first hand [code], what follows the last slash, to [CRS]
    and raise what it raises, whether their field is there or not; with the
    CRS built they raise [ValueError] when their field is absent or [None]
    and otherwise end as [BBox] or [Geometry] does on the field and the CRS.
    [evalscript] returns the evalscript of the request and raises
    [KeyError] when there is none. *)
Theorem accessors_read_held_description
    (s : State) (d process_request input bounds properties : dict)
    (prefix code : string) :
  _request_info (self s) = JObj d ->
  held_bounds d process_request input bounds properties ->
  dict_get "crs" properties = Some (JStr (prefix ++ "/" ++ code)) ->
  has_slash code = false ->
  bbox env s =
    (match CRS env code with
     | inl e => Raise e
     | inr crs =>
         match dict_get "bbox" bounds with
         | Some JNull | None =>
             Raise (ValueError
                      "Bounding box is not defined for this batch request")
         | Some v => built (BBox env v crs)
         end
     end, s)
  /\ geometry env s =
     (match CRS env code with
      | inl e => Raise e
      | inr crs =>
          match dict_get "geometry" bounds with
          | Some JNull | None =>
              Raise (ValueError "Geometry is not defined for this batch request")
          | Some v => built (Geometry env v crs)
          end
      end, s)
  /\ evalscript env s =
     (match dict_get "evalscript" process_request with
      | Some v => Return v
      | None => Raise (KeyError "evalscript")
      end, s).
Proof.
  intros Hcache (Hpr & Hin & Hb & Hprops) Hcrs Hcode.
  assert (Hinfo : info env s = (Return (JObj d), s)).
  { rewrite info_cached; rewrite Hcache; reflexivity. }
  assert (Hparse : _parse_bounds_payload env s =
                   (match CRS env code with
                    | inl e => Raise e
                    | inr crs =>
                        Return (match dict_get "bbox" bounds with
                                | Some v => v | None => JNull end,
                                match dict_get "geometry" bounds with
                                | Some v => v | None => JNull end,
                                crs)
                    end, s)).
  { unfold _parse_bounds_payload. rewrite (bind_step _ _ _ _ _ Hinfo).
    unfold getitem at 1. rewrite Hpr. unfold bind at 1, ret at 1.
    unfold getitem at 1. rewrite Hin. unfold bind at 1, ret at 1.
    unfold getitem at 1. rewrite Hb. unfold bind at 1, ret at 1.
    unfold getitem at 1. rewrite Hprops. unfold bind at 1, ret at 1.
    unfold getitem at 1. rewrite Hcrs. unfold bind at 1, ret at 1.
    rewrite (after_last_slash_app _ _ Hcode).
    destruct (CRS env code) as [e|crs]; [reflexivity|].
    unfold lift_result, get_default, bind, ret.
    now destruct (dict_get "bbox" bounds), (dict_get "geometry" bounds). }
  split; [|split].
  - unfold bbox, bind. rewrite Hparse.
    destruct (CRS env code) as [e|crs]; [reflexivity|].
    destruct (dict_get "bbox" bounds) as [[]|]; cbn [is_None];
      try reflexivity; unfold lift_result, built;
      now destruct (BBox env _ crs).
  - unfold geometry, bind. rewrite Hparse.
    destruct (CRS env code) as [e|crs]; [reflexivity|].
    destruct (dict_get "geometry" bounds) as [[]|]; cbn [is_None];
      try reflexivity; unfold lift_result, built;
      now destruct (Geometry env _ crs).
  - unfold evalscript. rewrite (bind_step _ _ _ _ _ Hinfo).
    unfold getitem at 1. rewrite Hpr. unfold bind at 1, ret at 1.
    unfold getitem. now destruct (dict_get "evalscript" process_request).
Qed.

End Accessors.

(** A job over a bounding box in EPSG:4326, and one whose CRS is not known:
    there the accessors raise the error of [CRS], [geometry] too, though the
    bounds have no geometry. *)
Lemma accessors_read_held_description_witness :
  let description crs :=
    JObj [("id", JStr "job1");
          ("processRequest",
           JObj [("evalscript", JStr "//VERSION=3");
                 ("input",
                  JObj [("bounds",
                         JObj [("bbox", JArr [JNum 10; JNum 45; JNum 11;
                                              JNum 46]);
                               ("properties",
                                JObj [("crs", JStr crs)])])])])] in
  let held crs :=
    mkState (with_request_info Scenario.job1 (description crs)) [] in
  let s := held "http://www.opengis.net/def/crs/EPSG/0/4326" in
  let s' := held "http://www.opengis.net/def/crs/EPSG/0/abc" in
  (bbox Scenario.no_jobs s =
     (Return (JArr [JNum 10; JNum 45; JNum 11; JNum 46], "4326"), s)
   /\ geometry Scenario.no_jobs s =
      (Raise (ValueError "Geometry is not defined for this batch request"), s)
   /\ evalscript Scenario.no_jobs s = (Return (JStr "//VERSION=3"), s))
  /\ (bbox Scenario.no_jobs s' =
        (Raise (ValueError "'abc' is not a valid CRS"), s')
      /\ geometry Scenario.no_jobs s' =
         (Raise (ValueError "'abc' is not a valid CRS"), s')
      /\ evalscript Scenario.no_jobs s' = (Return (JStr "//VERSION=3"), s')).
Proof.
  cbv zeta. split.
  - exact (accessors_read_held_description Scenario.no_jobs
             (mkState
                (with_request_info Scenario.job1
                   (JObj [("id", JStr "job1");
                          ("processRequest",
                           JObj [("evalscript", JStr "//VERSION=3");
                                 ("input",
                                  JObj [("bounds",
                                         JObj [("bbox",
                                                JArr [JNum 10; JNum 45;
                                                      JNum 11; JNum 46]);
                                               ("properties",
                                                JObj [("crs",
                                                       JStr "http://www.opengis.net/def/crs/EPSG/0/4326")])])])])]))
                [])
             _ _ _ _ _ "http://www.opengis.net/def/crs/EPSG/0" "4326"
             eq_refl (conj eq_refl (conj eq_refl (conj eq_refl eq_refl)))
             eq_refl eq_refl).
  - exact (accessors_read_held_description Scenario.no_jobs
             (mkState
                (with_request_info Scenario.job1
                   (JObj [("id", JStr "job1");
                          ("processRequest",
                           JObj [("evalscript", JStr "//VERSION=3");
                                 ("input",
                                  JObj [("bounds",
                                         JObj [("bbox",
                                                JArr [JNum 10; JNum 45;
                                                      JNum 11; JNum 46]);
                                               ("properties",
                                                JObj [("crs",
                                                       JStr "http://www.opengis.net/def/crs/EPSG/0/abc")])])])])]))
                [])
             _ _ _ _ _ "http://www.opengis.net/def/crs/EPSG/0" "abc"
             eq_refl (conj eq_refl (conj eq_refl (conj eq_refl eq_refl)))
             eq_refl eq_refl).
Defined.

(** ** The first access to the description *)

Section FirstAccess.

Variable env : Env.

(** X9: on a handle that holds no description yet, [raise_for_status]
    makes exactly one call, the GET of [update_info], and decides on the
    status of the answer, which the handle holds afterwards; an answer
    without a status raises [KeyError], and when the call fails its error is
    the one raised and the handle still holds nothing. *)
Theorem raise_for_status_fetches_once (status : status_arg) (s : State) :
  _request_info (self s) = JNull ->
  let r := info_request env (self s) in
  let t1 := (trace s ++ [Call r])%list in
  (forall msg, service env (trace s) r = inl msg ->
     raise_for_status env status s =
     (Raise (DownloadFailedException msg), mkState (self s) t1))
  /\ (forall d, service env (trace s) r = inr (JObj d) ->
        let s1 := mkState (with_request_info (self s) (JObj d)) t1 in
        raise_for_status env status s =
        match dict_get "status" d with
        | None => (Raise (KeyError "status"), s1)
        | Some batch_status =>
            if in_strs batch_status
                 (match status with AStatus x => [x] | AStatuses l => l end)
            then (Raise (RuntimeError
                           (status_error_message env (request_id (self s))
                              batch_status
                              (match dict_get "error" d with
                               | Some e => e
                               | None => JStr ""
                               end))), s1)
            else (Return tt, s1)
        end).
Proof.
  intros Hcache r t1. split.
  - intros msg Hs. unfold raise_for_status.
    apply bind_raise. rewrite info_run, Hcache. cbn [is_None].
    fold r. now rewrite Hs.
  - intros d Hs s1.
    assert (Hinfo : info env s = (Return (JObj d), s1)).
    { rewrite info_run, Hcache. cbn [is_None]. fold r. now rewrite Hs. }
    destruct (dict_get "status" d) as [batch_status|] eqn:Hd.
    + assert (Hrun := raise_for_status_run env status s1 d batch_status
                        eq_refl Hd).
      unfold raise_for_status in *.
      rewrite (bind_step _ _ _ _ _ Hinfo).
      assert (Hinfo1 : info env s1 = (Return (JObj d), s1))
        by (now apply info_cached).
      rewrite (bind_step _ _ _ _ _ Hinfo1) in Hrun. exact Hrun.
    + unfold raise_for_status. rewrite (bind_step _ _ _ _ _ Hinfo).
      apply bind_raise. unfold getitem. now rewrite Hd.
Qed.

(** X10: [update] makes one call, a PUT of the job URL whose body is the
    cleaned dict display of its arguments: no key of the body carries
    [None], [output] and [description] are keys exactly when they are not
    [None] (unless an extra keyword argument names the key), and with
    nothing to update the body is the empty dict, still sent with PUT. *)
Theorem update_puts_cleaned_payload
    (output description : json) (kwargs : dict) (s : State) :
  exists payload,
    trace (after (update env output description kwargs) s) =
    (trace s
     ++ [Call (mkRequest
                 (_get_process_url env (Some (config (self s)))
                    (request_id (self s)))
                 (JObj payload) (Some PUT) JNull)])%list
    /\ (forall k, dict_get k payload <> Some JNull)
    /\ (dict_get "output" kwargs = None ->
        dict_get "output" payload = if is_None output then None else Some output)
    /\ (dict_get "description" kwargs = None ->
        dict_get "description" payload =
        if is_None description then None else Some description)
    /\ (is_None output = true -> is_None description = true ->
        kwargs = [] -> payload = []).
Proof.
  exists (remove_undefined
            (dict_literal ([("output", output); ("description", description)]
                           ++ kwargs))).
  split; [|split; [|split; [|split]]].
  - unfold after, update, bind, get_self. rewrite one_call_run.
    now destruct (service env (trace s) _).
  - intros k. apply remove_undefined_no_None.
  - intros H. now apply cleaned_literal_named.
  - intros H. now apply cleaned_literal_named.
  - intros Ho Hd ->. destruct output, description; try discriminate.
    reflexivity.
Qed.

End FirstAccess.

(** A fresh handle of the job whose analysis failed: one call, then the
    error of the failed status. *)
Lemma raise_for_status_fetches_once_witness :
  let env := Scenario.environment [(Scenario.job_url, [Scenario.failed_job])] in
  let run := raise_for_status env (AStatus "FAILED") (mkState Scenario.job1 []) in
  (exists msg, fst run = Raise (RuntimeError msg))
  /\ calls_of (trace (snd run)) = [(GET, Scenario.job_url)]
  /\ _request_info (self (snd run)) = Scenario.failed_job.
Proof.
  cbv zeta.
  destruct (raise_for_status_fetches_once
              (Scenario.environment [(Scenario.job_url, [Scenario.failed_job])])
              (AStatus "FAILED") (mkState Scenario.job1 []) eq_refl)
    as (_ & Hfetch).
  rewrite (Hfetch [("id", JStr "job1"); ("status", JStr "FAILED");
                   ("error", JStr "Out of processing units")] eq_refl).
  repeat split. eexists. reflexivity.
Defined.

(** ** Failed calls *)

Section Failures.

Variable env : Env.

(** The failure of the download client a computation ended with, if any. *)
Definition failure_of {A : Type} (r : outcome A) : option string :=
  match r with
  | Raise (DownloadFailedException msg) => Some msg
  | _ => None
  end.

(** Of the events [new] recorded from the trace [t] on: a call that the
    service failed is the last call and its failure is [f]; and a failure
    [f] is the one of such a call. *)
Definition failure_ends_run (t new : Trace) (f : option string) : Prop :=
  (forall pre req post msg,
     new = (pre ++ Call req :: post)%list ->
     service env (t ++ pre)%list req = inl msg ->
     f = Some msg /\ calls_of post = [])
  /\ (forall msg, f = Some msg ->
        exists pre req post,
          new = (pre ++ Call req :: post)%list
          /\ service env (t ++ pre)%list req = inl msg
          /\ calls_of post = []).

(** Every run of [m] ends with the failure of its last call or with none. *)
Definition faithful {A : Type} (m : Method A) : Prop :=
  forall s r s', m s = (r, s') ->
    exists new, trace s' = (trace s ++ new)%list
                /\ failure_ends_run (trace s) new (failure_of r).

(** Runs of [m] record nothing and do not end with a failed call. *)
Definition traceless {A : Type} (m : Method A) : Prop :=
  forall s r s', m s = (r, s') -> trace s' = trace s /\ failure_of r = None.

Lemma app_eq_middle {X : Type} (new1 new2 pre post : list X) (x : X) :
  (new1 ++ new2 = pre ++ x :: post)%list ->
  (exists post1, new1 = pre ++ x :: post1 /\ post = post1 ++ new2)%list
  \/ (exists pre2, pre = new1 ++ pre2 /\ new2 = pre2 ++ x :: post)%list.
Proof.
  revert pre. induction new1 as [|a n IH]; intros pre H; simpl in H.
  - right. now exists pre.
  - destruct pre as [|b pre]; simpl in H; inversion H; subst.
    + left. now exists n.
    + destruct (IH _ H2) as [(post1 & -> & ->)|(pre2 & -> & ->)].
      * left. now exists post1.
      * right. now exists pre2.
Qed.

Lemma failure_none (t : Trace) : failure_ends_run t [] None.
Proof.
  split; [|discriminate].
  intros pre req post msg H. now destruct pre.
Qed.

Lemma failure_seq (t new1 new2 : Trace) (f : option string) :
  failure_ends_run t new1 None ->
  failure_ends_run (t ++ new1)%list new2 f ->
  failure_ends_run t (new1 ++ new2)%list f.
Proof.
  intros (H1 & _) (H2 & H2'). split.
  - intros pre req post msg E Hs.
    destruct (app_eq_middle _ _ _ _ _ E) as [(post1 & -> & ->)|(pre2 & -> & ->)].
    + now destruct (H1 _ _ _ _ eq_refl Hs).
    + apply (H2 pre2 req post msg eq_refl). now rewrite <- app_assoc.
  - intros msg E. destruct (H2' msg E) as (pre & req & post & -> & Hs & Hc).
    exists (new1 ++ pre)%list, req, post.
    rewrite <- app_assoc in Hs. rewrite <- app_assoc. now repeat split.
Qed.

Lemma failure_then (t new extra : Trace) (f : option string) :
  failure_ends_run t new f -> calls_of extra = [] ->
  failure_ends_run t (new ++ extra)%list f.
Proof.
  intros (H1 & H1') Hextra. split.
  - intros pre req post msg E Hs.
    destruct (app_eq_middle _ _ _ _ _ E) as [(post1 & -> & ->)|(pre2 & -> & ->)].
    + destruct (H1 _ _ _ _ eq_refl Hs) as (-> & Hc). split; [reflexivity|].
      now rewrite calls_of_app, Hc, Hextra.
    + rewrite calls_of_app in Hextra. simpl in Hextra.
      now destruct (calls_of pre2).
  - intros msg E. destruct (H1' msg E) as (pre & req & post & -> & Hs & Hc).
    exists pre, req, (post ++ extra)%list. rewrite <- app_assoc.
    repeat split; try assumption. now rewrite calls_of_app, Hc, Hextra.
Qed.

Lemma faithful_traceless {A : Type} (m : Method A) : traceless m -> faithful m.
Proof.
  intros Hm s r s' H. destruct (Hm _ _ _ H) as (Ht & Hf).
  exists []. rewrite app_nil_r, Hf. split; [exact Ht | apply failure_none].
Qed.

Lemma faithful_bind {A B : Type} (m : Method A) (k : A -> Method B) :
  faithful m -> (forall a, faithful (k a)) -> faithful (bind m k).
Proof.
  intros Hm Hk s r s' H. unfold bind in H.
  destruct (m s) as [[a|e|] s1] eqn:E; destruct (Hm _ _ _ E) as (new1 & Ht1 & Hf1).
  - destruct (Hk _ _ _ _ H) as (new2 & Ht2 & Hf2).
    exists (new1 ++ new2)%list. split; [now rewrite Ht2, Ht1, app_assoc|].
    apply failure_seq; [exact Hf1 | now rewrite <- Ht1].
  - inversion H; subst. now exists new1.
  - inversion H; subst. now exists new1.
Qed.

Lemma faithful_call (r : Request) : faithful (liftIO (get_json env r)).
Proof.
  intros s o s' H. rewrite one_call_run in H. exists [Call r].
  destruct (service env (trace s) r) as [msg|j] eqn:Hs; inversion H; subst;
    (split; [reflexivity|]); split.
  - intros pre req post m' E Hs'. destruct pre as [|? [|? ?]]; inversion E; subst.
    rewrite app_nil_r in Hs'. rewrite Hs in Hs'. now inversion Hs'.
  - intros m' E. inversion E; subst. exists [], r, [].
    now rewrite app_nil_r.
  - intros pre req post m' E Hs'. destruct pre as [|? [|? ?]]; inversion E; subst.
    rewrite app_nil_r in Hs'. congruence.
  - discriminate.
Qed.

Lemma faithful_emit (e : Event) :
  (forall r, e <> Call r) -> faithful (liftIO (emit e)).
Proof.
  intros He s o s' H. unfold liftIO, emit in H. inversion H; subst.
  exists [e]. split; [reflexivity|]. split; [|discriminate].
  intros pre req post msg E. destruct pre as [|? [|? ?]]; inversion E; subst.
  now destruct (He req).
Qed.

Lemma traceless_ret {A : Type} (a : A) : traceless (ret a).
Proof. intros s r s' H. inversion H. now split. Qed.

Lemma traceless_out_of_fuel {A : Type} : traceless (@out_of_fuel State A).
Proof. intros s r s' H. inversion H. now split. Qed.

Lemma traceless_raise {A : Type} (e : exn) :
  (forall msg, e <> DownloadFailedException msg) -> traceless (@raise State A e).
Proof.
  intros He s r s' H. inversion H. split; [reflexivity|].
  destruct e; try reflexivity. now destruct (He msg).
Qed.

Lemma traceless_getitem (v : json) (k : string) : traceless (getitem v k).
Proof.
  intros s r s' H. unfold getitem in H.
  destruct v; try destruct (dict_get k d); inversion H; now split.
Qed.

Lemma traceless_get_default (v : json) (k : string) (default : json) :
  traceless (get_default v k default).
Proof.
  intros s r s' H. unfold get_default in H.
  destruct v; try destruct (dict_get k d); inversion H; now split.
Qed.

Lemma traceless_lt_int (a : Z) (v : json) : traceless (lift_result (lt_int a v)).
Proof.
  intros s r s' H. unfold lift_result, lt_int in H.
  destruct (as_int v); inversion H; now split.
Qed.

Lemma traceless_get_self : traceless get_self.
Proof. intros s r s' H. inversion H. now split. Qed.

Lemma traceless_set_request_info (v : json) : traceless (set_request_info v).
Proof. intros s r s' H. inversion H. now split. Qed.

Lemma failure_one_call (t : Trace) (r : Request) :
  failure_ends_run t [Call r]
    (match service env t r with inl msg => Some msg | inr _ => None end).
Proof.
  split.
  - intros pre req post m' E Hs'. destruct pre as [|? [|? ?]]; inversion E; subst.
    rewrite app_nil_r in Hs'. now rewrite Hs'.
  - intros m' E. exists [], r, []. rewrite app_nil_r.
    destruct (service env t r); inversion E; now subst.
Qed.

Lemma faithful_for_next (it : SentinelHubFeatureIterator) :
  faithful (for_next env it).
Proof.
  intros s r s' H. rewrite for_next_run in H.
  destruct (features it) as [|x rest];
    [destruct (finished it)|];
    try (inversion H; subst; exists []; rewrite app_nil_r;
         split; [reflexivity | apply failure_none]).
  cbv zeta in H. exists [Call (page_request env it)].
  pose proof (failure_one_call (trace s) (page_request env it)) as Hf.
  destruct (service env (trace s) (page_request env it)) as [msg|page];
    [inversion H; subst; now split|].
  destruct (feed_items env page) as [[|x rest]|]; [| |destruct (started it)];
    inversion H; subst; now split.
Qed.

Ltac faithful_step :=
  first
    [ apply faithful_bind; [|intros ?]
    | apply faithful_call
    | apply faithful_for_next
    | apply faithful_emit; discriminate
    | apply faithful_traceless;
      first [ apply traceless_ret | apply traceless_out_of_fuel
            | apply traceless_getitem | apply traceless_get_default
            | apply traceless_lt_int | apply traceless_get_self
            | apply traceless_set_request_info
            | apply traceless_raise; discriminate ]
    | match goal with
      | |- faithful (if ?b then _ else _) => destruct b
      | |- faithful (match ?x with _ => _ end) => destruct x
      end ].

Lemma faithful_update_info : faithful (update_info env).
Proof. unfold update_info. repeat faithful_step. Qed.

Lemma faithful_info : faithful (info env).
Proof.
  unfold info. faithful_step; [faithful_step|]. faithful_step.
  - destruct (is_None _); [apply faithful_update_info | faithful_step].
  - repeat faithful_step.
Qed.

Lemma faithful_raise_for_status status : faithful (raise_for_status env status).
Proof.
  unfold raise_for_status.
  apply faithful_bind; [apply faithful_info | intros i].
  apply faithful_bind; [faithful_step | intros batch_status].
  destruct (in_strs _ _); [|faithful_step].
  apply faithful_bind; [apply faithful_info | intros j].
  repeat faithful_step.
Qed.

Lemma faithful_log format args : faithful (log format args).
Proof. unfold log. faithful_step. Qed.

Lemma faithful_sleep seconds : faithful (sleep seconds).
Proof. unfold sleep. repeat faithful_step. Qed.

Lemma faithful_bar desc op : faithful (bar desc op).
Proof. unfold bar. faithful_step. Qed.

Lemma faithful_wait fuel analysis_sleep_time status :
  faithful (wait_for_analysis env fuel analysis_sleep_time status).
Proof.
  revert status. induction fuel as [|fuel IH]; intros status;
    cbn [wait_for_analysis]; destruct (in_strs _ _);
    [faithful_step | faithful_step | | faithful_step].
  apply faithful_bind; [apply faithful_log | intros _].
  apply faithful_bind; [apply faithful_sleep | intros _].
  apply faithful_bind; [apply faithful_update_info | intros _].
  apply faithful_bind; [apply faithful_info | intros i].
  apply faithful_bind; [faithful_step | intros status']. apply IH.
Qed.

Lemma faithful_tiles_loop fuel it acc : faithful (tiles_loop env fuel it acc).
Proof.
  revert it acc. induction fuel as [|fuel IH]; intros it acc;
    cbn [tiles_loop]; [faithful_step|].
  apply faithful_bind; [apply faithful_for_next | intros [[tile it']|]];
    [|faithful_step].
  apply faithful_bind; [faithful_step | intros status].
  destruct (hashable status); [apply IH | faithful_step].
Qed.

Lemma faithful_get_batch_tiles_per_status fuel :
  faithful (get_batch_tiles_per_status env fuel).
Proof.
  unfold get_batch_tiles_per_status.
  apply faithful_bind; [faithful_step | intros h]. apply faithful_tiles_loop.
Qed.

Lemma faithful_sampling_loop fuel sleep_time total finished success last :
  faithful (sampling_loop env fuel sleep_time total finished success last).
Proof.
  revert finished success last.
  induction fuel as [|fuel IH]; intros finished success last;
    cbn [sampling_loop];
    (apply faithful_bind; [faithful_step | intros [|]]);
    [faithful_step | faithful_step | | faithful_step].
  apply faithful_bind;
    [apply faithful_get_batch_tiles_per_status | intros tiles].
  apply faithful_bind; [apply faithful_bar | intros _].
  apply faithful_bind.
  { destruct (_ =? _); [faithful_step|].
    apply faithful_bind; [apply faithful_bar | intros _]. apply faithful_bar. }
  intros _.
  apply faithful_bind; [apply faithful_bar | intros _].
  apply faithful_bind; [faithful_step | intros again].
  apply faithful_bind;
    [destruct again; [apply faithful_sleep | faithful_step] | intros _].
  apply IH.
Qed.

Lemma faithful_with_bars {A : Type} (m : Method A) :
  faithful m -> faithful (with_exit m close_bars).
Proof.
  intros Hm s r s' H. unfold with_exit in H.
  destruct (m s) as [[a|e|] s1] eqn:E;
    destruct (Hm _ _ _ E) as (new & Ht & Hf); inversion H; subst;
    try (now exists new);
    (exists (new ++ [Bar "Success rate" BarClose; Bar "Progress rate" BarClose])%list;
     cbn [close_bars trace]; rewrite Ht, <- app_assoc;
     split; [reflexivity | now apply failure_then]).
Qed.

(** X11: in every run of [monitor_batch_job], whatever its outcome, a call
    that fails is the last call the run makes and its failure is the
    outcome of the run; and a run that ends with a failure of the download
    client ends with that of its last call.  No call is made after a failed
    one, and no failure is swallowed. *)
Theorem monitor_stops_at_failed_call
    (fuel : nat) (sleep_time analysis_sleep_time : Z) (s : State)
    (r : outcome tiles_dict) (s' : State) :
  monitor_batch_job env fuel sleep_time analysis_sleep_time s = (r, s') ->
  exists new,
    trace s' = (trace s ++ new)%list
    /\ (forall pre req post msg,
          new = (pre ++ Call req :: post)%list ->
          service env (trace s ++ pre)%list req = inl msg ->
          r = Raise (DownloadFailedException msg) /\ calls_of post = [])
    /\ (forall msg, r = Raise (DownloadFailedException msg) ->
          exists pre req post,
            new = (pre ++ Call req :: post)%list
            /\ service env (trace s ++ pre)%list req = inl msg
            /\ calls_of post = []).
Proof.
  assert (Hm : faithful (monitor_batch_job env fuel sleep_time
                            analysis_sleep_time)).
  { unfold monitor_batch_job, analysis_phase.
    apply faithful_bind.
    { apply faithful_bind; [apply faithful_update_info | intros _].
      apply faithful_bind; [apply faithful_info | intros i].
      apply faithful_bind; [faithful_step | intros status].
      apply faithful_wait. }
    intros status.
    apply faithful_bind; [apply faithful_raise_for_status | intros _].
    apply faithful_bind;
      [destruct (eq_str _ _); [apply faithful_log | faithful_step] | intros _].
    cbv zeta.
    apply faithful_bind; [apply faithful_info | intros i].
    apply faithful_bind; [faithful_step | intros total].
    apply faithful_bind; [apply faithful_bar | intros _].
    apply faithful_bind; [apply faithful_bar | intros _].
    apply faithful_bind;
      [apply faithful_with_bars, faithful_sampling_loop | intros [last|]];
      [|faithful_step].
    apply faithful_bind; [|intros _; faithful_step].
    destruct (_ =? _); [faithful_step | apply faithful_log]. }
  intros H. destruct (Hm _ _ _ H) as (new & Ht & Hf1 & Hf2).
  exists new. split; [exact Ht|]. split.
  - intros pre req post msg E Hs. destruct (Hf1 _ _ _ _ E Hs) as (Hr & Hc).
    split; [|exact Hc].
    destruct r as [a|e|]; try discriminate. destruct e; try discriminate.
    simpl in Hr. now inversion Hr.
  - intros msg ->. apply Hf2. reflexivity.
Qed.

End Failures.

Lemma monitor_stops_at_failed_call_witness :
  exists pre req post,
    trace (snd (monitor_batch_job
                  (Scenario.environment
                     [(Scenario.job_url, [Scenario.job "PROCESSING" 3])])
                  10 120 5 (mkState Scenario.job1 []))) =
    (pre ++ Call req :: post)%list
    /\ url req = Scenario.tiles_url
    /\ calls_of post = [].
Proof.
  destruct (monitor_stops_at_failed_call
              (Scenario.environment
                 [(Scenario.job_url, [Scenario.job "PROCESSING" 3])])
              10 120 5 (mkState Scenario.job1 [])
              (Raise (DownloadFailedException "404 Not Found"))
              (snd (monitor_batch_job
                      (Scenario.environment
                         [(Scenario.job_url, [Scenario.job "PROCESSING" 3])])
                      10 120 5 (mkState Scenario.job1 [])))
              eq_refl) as (new & Ht & _ & Hlast).
  destruct (Hlast _ eq_refl) as (pre & req & post & Hnew & Hs & Hc).
  exists pre, req, post. rewrite Ht, Hnew. repeat split; [|exact Hc].
  unfold Scenario.environment, Scenario.scripted in Hs.
  cbn [service find fst] in Hs.
  destruct (String.eqb (url req) Scenario.job_url) eqn:Hu; [discriminate|].
  clear Hs Hlast Hc. vm_compute in Ht. rewrite Hnew in Ht. clear Hnew.
  destruct pre as [|e1 [|e2 [|e3 [|e4 [|e5 [|e6 [|e7 [|e8 pre]]]]]]]];
    simpl in Ht; inversion Ht; subst;
    try reflexivity; try (vm_compute in Hu; discriminate).
Defined.
